(** * EuiDataGridHeaderCell: roving focus of a data grid header cell

    A shallow embedding of [src/components/datagrid/data_grid_header_cell.tsx].

    The component is a React function component.  Its observable state is
    the DOM subtree below the [columnheader] container (attributes written
    with [setAttribute]), the React state [isCellEntered], the browser's
    [document.activeElement], the console, the calls made to the grid's
    [setFocusedCell], and the callbacks queued with [requestAnimationFrame].
    All of it is threaded explicitly through a [Cell] record; every handler
    and effect of the source is a function [Cell -> Cell]. *)

From Stdlib Require Import ZArith Lia Bool String DecimalString.
From stdpp Require Import base numbers list strings gmap.

Open Scope Z_scope.

(** ** DOM elements below the container *)

(** What the component reads and writes of a descendant element. *)
Record Element := mkElement {
  nativelyTabbable : bool;    (* the element kind has natural tab order 0
                                 (button, input, a[href]); others have -1 *)
  usable : bool;              (* visible and not disabled *)
  tabIndexAttr : option Z;    (* the tabIndex attribute, when present *)
  tabManaged : bool;          (* carries data-euigrid-tab-managed *)
}.

(** The [tabIndex] DOM property: the attribute when present, otherwise the
    natural tab order of the element kind. *)
Definition tabIndex (e : Element) : Z :=
  match tabIndexAttr e with
  | Some n => n
  | None => if nativelyTabbable e then 0 else -1
  end.

(** [element.setAttribute('tabIndex', v)] *)
Definition setTabIndex (v : Z) (e : Element) : Element :=
  {| nativelyTabbable := nativelyTabbable e; usable := usable e;
     tabIndexAttr := Some v; tabManaged := tabManaged e |}.

(** [element.setAttribute('data-euigrid-tab-managed', 'true')] *)
Definition setTabManaged (e : Element) : Element :=
  {| nativelyTabbable := nativelyTabbable e; usable := usable e;
     tabIndexAttr := tabIndexAttr e; tabManaged := true |}.

(** The descendants of the container, in document order.  A node list
    (the result of a query) is the list of the positions of its nodes. *)
Definition Subtree := list Element.
Definition NodeList := list nat.

(** Positions, from [i] on, of the elements that satisfy [p]. *)
Fixpoint scan (p : Element -> bool) (i : nat) (l : Subtree) : NodeList :=
  match l with
  | [] => []
  | e :: l' => if p e then i :: scan p (S i) l' else scan p (S i) l'
  end.

(** Modelled from the spec: the [tabbable] package (imported, not part of
    this repository's sources) is the Interactive-Child Scanner of the
    design: the descendants that are visible, not disabled and have a
    non-negative natural or explicit tab order, in document order. *)
Definition isTabbable (e : Element) : bool := usable e && (0 <=? tabIndex e).
Definition tabbable (root : Subtree) : NodeList := scan isTabbable 0 root.

(** [root.querySelectorAll('[data-euigrid-tab-managed]')] *)
Definition querySelectorAll_tabManaged (root : Subtree) : NodeList :=
  scan tabManaged 0 root.

(** [for (let i = 0; i < nodes.length; i++) { body(nodes[i]) }], where the
    body rewrites attributes of the node. *)
Definition forEachNode (body : Element -> Element) (nodes : NodeList)
    (root : Subtree) : Subtree :=
  foldl (fun dom n => alter body n dom) root nodes.

(** ** Props *)

Record SortColumn := mkSortColumn { sort_id : string; direction : string }.

Record Column := mkColumn { id : string; display : option string }.

Record Props := mkProps {
  column : Column;
  index : Z;
  sorting : option (list SortColumn);     (* sorting.columns, when sorting is given *)
  focusedCell : option (Z * Z);
  setFocusedCellRef : nat;                (* identity of the setFocusedCell callback *)
  headerIsInteractive : bool;
}.

(** [focusedCell != null && focusedCell[0] === index && focusedCell[1] === -1] *)
Definition isFocused (p : Props) : bool :=
  match focusedCell p with
  | Some (col, row) => (col =? index p) && (row =? -1)
  | None => false
  end.

(** ** The cell *)

(** [document.activeElement], relative to the cell. *)
Inductive Focus :=
| OnContainer                (* the columnheader container itself *)
| OnChild (n : nat)          (* the descendant at position n *)
| Elsewhere.                 (* the body, or an element outside the cell *)

(** Callbacks handed to [requestAnimationFrame]. *)
Inductive Deferred :=
| DeferredBlur               (* () => headerRef.current!.blur() *)
| DeferredFocusCheck.        (* the callback of onFocusOut *)

Inductive JsError :=
| TypeError (msg : string).

Record Cell := mkCell {
  mounted : bool;                    (* headerRef.current is the container, not null *)
  props : Props;                     (* props of the latest render *)
  isCellEntered : bool;              (* useState(false) *)
  containerTabIndex : Z;             (* tabIndex rendered on the container *)
  children : Subtree;
  activeElement : Focus;
  console : list string;             (* console.warn messages, oldest first *)
  focusRequests : list (Z * Z);      (* arguments of setFocusedCell, oldest first *)
  frames : list Deferred;            (* callbacks waiting for the next frame *)
  uncaught : list JsError;           (* exceptions that escaped a callback *)
}.

Definition with_isCellEntered (v : bool) (c : Cell) : Cell :=
  mkCell (mounted c) (props c) v (containerTabIndex c) (children c)
         (activeElement c) (console c) (focusRequests c) (frames c) (uncaught c).

Definition with_children (dom : Subtree) (c : Cell) : Cell :=
  mkCell (mounted c) (props c) (isCellEntered c) (containerTabIndex c) dom
         (activeElement c) (console c) (focusRequests c) (frames c) (uncaught c).

Definition with_activeElement (f : Focus) (c : Cell) : Cell :=
  mkCell (mounted c) (props c) (isCellEntered c) (containerTabIndex c) (children c)
         f (console c) (focusRequests c) (frames c) (uncaught c).

Definition with_frames (q : list Deferred) (c : Cell) : Cell :=
  mkCell (mounted c) (props c) (isCellEntered c) (containerTabIndex c) (children c)
         (activeElement c) (console c) (focusRequests c) q (uncaught c).

(** [console.warn(msg)] *)
Definition console_warn (msg : string) (c : Cell) : Cell :=
  mkCell (mounted c) (props c) (isCellEntered c) (containerTabIndex c) (children c)
         (activeElement c) (console c ++ [msg]) (focusRequests c) (frames c) (uncaught c).

(** [setFocusedCell(target)]: the request is handed to the grid. *)
Definition setFocusedCell (target : Z * Z) (c : Cell) : Cell :=
  mkCell (mounted c) (props c) (isCellEntered c) (containerTabIndex c) (children c)
         (activeElement c) (console c) (focusRequests c ++ [target]) (frames c) (uncaught c).

(** [requestAnimationFrame(cb)] *)
Definition requestAnimationFrame (cb : Deferred) (c : Cell) : Cell :=
  with_frames (frames c ++ [cb]) c.

(** An exception that leaves a frame callback is reported, not rethrown. *)
Definition reportError (err : JsError) (c : Cell) : Cell :=
  mkCell (mounted c) (props c) (isCellEntered c) (containerTabIndex c) (children c)
         (activeElement c) (console c) (focusRequests c) (frames c) (uncaught c ++ [err]).

(** [setIsCellEntered(v)]: the state is updated; the effect that depends
    on it runs when the update is committed (see [commit]). *)
Definition setIsCellEntered (v : bool) (c : Cell) : Cell := with_isCellEntered v c.

(** [headerRef.current.focus()]: what the call does to
    [document.activeElement].  The focusout and focusin events the browser
    dispatches for the call reach the listeners of the cell as the events
    [FocusOut] and [FocusIn] (see [Event]); nothing is said here about the
    callbacks they queue or the requests they make. *)
Definition focusContainer (c : Cell) : Cell := with_activeElement OnContainer c.

(** [headerRef.current.blur()]: what the call does to
    [document.activeElement]; only the focused element loses focus.  The
    focusout the browser dispatches when the container did hold focus is the
    event [FocusOut] (see [Event]). *)
Definition blurContainer (c : Cell) : Cell :=
  match activeElement c with
  | OnContainer => with_activeElement Elsewhere c
  | _ => c
  end.

(** [headerRef.current.contains(document.activeElement)]; a node contains
    itself. *)
Definition containsActiveElement (c : Cell) : bool :=
  match activeElement c with
  | OnContainer | OnChild _ => true
  | Elsewhere => false
  end.

(** ** Tab-reachability controller *)

Definition natToString (n : nat) : string := NilEmpty.string_of_uint (Nat.to_uint n).

Definition tabbableWarning (n : nat) : string :=
  ("EuiDataGridHeaderCell expects at most 1 tabbable element, " +:+ natToString n
     +:+ " found instead")%string.

Definition enableInteractives (c : Cell) : Cell :=
  let interactiveElements := querySelectorAll_tabManaged (children c) in
  with_children (forEachNode (setTabIndex 0) interactiveElements (children c)) c.

Definition disableInteractives (c : Cell) : Cell :=
  let tababbles := tabbable (children c) in
  let c1 := if (1 <? length tababbles)%nat
            then console_warn (tabbableWarning (length tababbles)) c
            else c in
  with_children
    (forEachNode (fun element => setTabIndex (-1) (setTabManaged element))
                 tababbles (children c1)) c1.

(** ** Effects *)

(** The body of [useEffect(..., [isCellEntered])]. *)
Definition enteredEffect (c : Cell) : Cell :=
  if mounted c then
    if isCellEntered c then
      let c1 := enableInteractives c in
      match tabbable (children c1) with
      | first :: _ => with_activeElement (OnChild first) c1   (* tabbables[0].focus() *)
      | [] => c1
      end
    else disableInteractives c
  else c.

(** A state update is committed by a re-render; the effect keyed on
    [isCellEntered] runs when the value differs from the one of the
    previous render, and not otherwise. *)
Definition commit (previous : bool) (c : Cell) : Cell :=
  if Bool.eqb previous (isCellEntered c) then c else enteredEffect c.

(** The body of the second effect, up to the registration of the
    listeners. *)
Definition focusedEffect (c : Cell) : Cell :=
  if mounted c then
    if isFocused (props c) then
      let interactives := querySelectorAll_tabManaged (children c) in
      if (length interactives =? 1)%nat then setIsCellEntered true c
      else focusContainer c
    else setIsCellEntered false c
  else c.

(** The dependency list of the second effect:
    [headerIsInteractive, isFocused, setIsCellEntered, setFocusedCell, index];
    [setIsCellEntered] is stable across renders. *)
Definition sameDeps (p q : Props) : bool :=
  Bool.eqb (headerIsInteractive p) (headerIsInteractive q)
  && Bool.eqb (isFocused p) (isFocused q)
  && (setFocusedCellRef p =? setFocusedCellRef q)%nat
  && (index p =? index q).

(** [tabIndex={isFocused ? 0 : -1}] *)
Definition renderedTabIndex (p : Props) : Z := if isFocused p then 0 else -1.

(** First render of the component over the subtree [dom]: both effects run,
    in order, and the state update of the second one is committed. *)
Definition mount (p : Props) (dom : Subtree) (active : Focus) : Cell :=
  let c0 := mkCell true p false (renderedTabIndex p) dom active [] [] [] [] in
  commit false (focusedEffect (enteredEffect c0)).

(** The effects of a later render with props [p], and the props React
    writes on the container.  The descendants are the ones React committed
    for this render: [Rerender p] is the render that keeps the descendants
    the cell has; a render that adds, removes or replaces descendants is
    [Render p dom] (see [reconcile] and [LifeEvent]).  The disable pass is
    not part of a render: it runs when [isCellEntered] changes. *)
Definition rerender (p : Props) (c : Cell) : Cell :=
  if mounted c then
    let c1 := mkCell true p (isCellEntered c) (renderedTabIndex p) (children c)
                     (activeElement c) (console c) (focusRequests c) (frames c)
                     (uncaught c) in
    let c2 := if sameDeps (props c) p then c1 else focusedEffect c1 in
    commit (isCellEntered c) c2
  else c.

(** React clears the ref and the cleanup of the second effect removes the
    listeners; queued frame callbacks stay queued. *)
Definition unmount (c : Cell) : Cell :=
  mkCell false (props c) (isCellEntered c) (containerTabIndex c) (children c)
         (activeElement c) (console c) (focusRequests c) (frames c) (uncaught c).

(** ** Listeners *)

(** [e.preventDefault()] and the value a listener returns act on the event
    object only; they are left out. *)

Definition onFocusIn (c : Cell) : Cell :=
  if Bool.eqb (headerIsInteractive (props c)) false then
    requestAnimationFrame DeferredBlur c
  else
    setFocusedCell (index (props c), -1) c.

Definition onFocusOut (c : Cell) : Cell :=
  requestAnimationFrame DeferredFocusCheck c.

(** The key of a keyup event, classified against the [keyCodes] table of
    [../../services] (which is not part of this file). *)
Inductive Key := ENTER | ESCAPE | F2 | OtherKey.

Definition Focus_eqb (a b : Focus) : bool :=
  match a, b with
  | OnContainer, OnContainer => true
  | OnChild n, OnChild m => (n =? m)%nat
  | Elsewhere, Elsewhere => true
  | _, _ => false
  end.

Definition onKeyUp (k : Key) (c : Cell) : Cell :=
  match k with
  | ENTER => setIsCellEntered true c
  | ESCAPE => focusContainer (setIsCellEntered false c)
  | F2 =>
      if Focus_eqb (activeElement c) OnContainer then setIsCellEntered true c
      else focusContainer (setIsCellEntered false c)
  | OtherKey => c
  end.

(** A listener runs only while it is registered, that is while the cell is
    mounted; the state updates it made are committed when it returns. *)
Definition dispatch (listener : Cell -> Cell) (c : Cell) : Cell :=
  if mounted c then commit (isCellEntered c) (listener c) else c.

(** ** Frame callbacks *)

(** One callback; [inl] is the exception it throws. *)
Definition runDeferred (cb : Deferred) (c : Cell) : JsError + Cell :=
  match cb with
  | DeferredBlur =>
      if mounted c then inr (blurContainer c)
      else inl (TypeError "Cannot read property 'blur' of null")
  | DeferredFocusCheck =>
      if mounted c then
        if Bool.eqb (containsActiveElement c) false
        then inr (commit (isCellEntered c) (setIsCellEntered false c))
        else inr c
      else inr c
  end.

Fixpoint runCallbacks (cbs : list Deferred) (c : Cell) : Cell :=
  match cbs with
  | [] => c
  | cb :: rest =>
      runCallbacks rest
        (match runDeferred cb c with
         | inr c' => c'
         | inl err => reportError err c
         end)
  end.

(** The browser runs the callbacks queued for this frame, in order;
    callbacks queued meanwhile wait for the next frame. *)
Definition animationFrame (c : Cell) : Cell :=
  runCallbacks (frames c) (with_frames [] c).

(** ** The cell as a transition system *)

(** What the environment (grid, browser, user) does to a cell whose
    rendered descendants stay in place.  A call of [focus()] or [blur()] in
    the component changes [activeElement] at once; the focusin and focusout
    events the browser dispatches because of it are events of their own,
    [FocusIn] and [FocusOut], that follow the event whose listener made the
    call.  The listeners they reach queue a callback or call
    [setFocusedCell] and touch nothing else, so a statement about [step]
    that names neither [frames] nor [focusRequests] holds with the nested
    events or without.  The render the grid answers a [setFocusedCell]
    request with is an event of its own too. *)

Inductive Event :=
| Rerender (p : Props)       (* the grid renders the cell again, same descendants *)
| FocusIn                    (* a focusin event bubbles to the container *)
| FocusOut                   (* a focusout event bubbles to the container *)
| KeyUp (k : Key)            (* a keyup event bubbles to the container *)
| AnimationFrame             (* the next animation frame *)
| MoveFocus (f : Focus)      (* the user moves DOM focus (click, Tab) *)
| Unmount.

Definition step (ev : Event) (c : Cell) : Cell :=
  match ev with
  | Rerender p => rerender p c
  | FocusIn => dispatch onFocusIn c
  | FocusOut => dispatch onFocusOut c
  | KeyUp k => dispatch (onKeyUp k) c
  | AnimationFrame => animationFrame c
  | MoveFocus f => with_activeElement f c
  | Unmount => unmount c
  end.

Definition run (evs : list Event) (c : Cell) : Cell := foldl (fun s ev => step ev s) c evs.

(** The states a cell can be in while its rendered descendants stay in
    place: after its first render and any number of events of [Event]. *)
Inductive reachable : Cell -> Prop :=
| reachable_mount p dom active : reachable (mount p dom active)
| reachable_step ev c : reachable c -> reachable (step ev c).

(** ** Renders that change the descendants *)

(** React's DOM commit of a render: the descendants rendered from the new
    props (the display content, the resize handle, the hidden node) take
    the place of the old ones.  [dom] is the subtree after the commit: an
    element React keeps is in it with the attributes it has, the ones
    written by [setAttribute] included; an element React creates is in it
    as rendered.  An unmounted cell is not rendered.  Where the commit
    removes the element that holds DOM focus, the browser moves focus, which
    is the event [MoveFocus]. *)
Definition reconcile (dom : Subtree) (c : Cell) : Cell :=
  if mounted c then with_children dom c else c.

(** What happens to a cell in its life: an event that keeps its
    descendants, or a render with props [p] that commits the descendants
    [dom] and then runs the effects. *)
Inductive LifeEvent :=
| Keeping (ev : Event)
| Render (p : Props) (dom : Subtree).

Definition lifeStep (ev : LifeEvent) (c : Cell) : Cell :=
  match ev with
  | Keeping ev => step ev c
  | Render p dom => rerender p (reconcile dom c)
  end.

Definition lifeRun (evs : list LifeEvent) (c : Cell) : Cell :=
  foldl (fun s ev => lifeStep ev s) c evs.

Definition keepsDescendants (ev : LifeEvent) : bool :=
  match ev with Keeping _ => true | Render _ _ => false end.

(** ** Rendering: ARIA sort attributes and the screen-reader summary *)

Record AriaProps := mkAriaProps {
  aria_sort : option string;
  aria_describedby : option string;
}.

Record SortAria := mkSortAria {
  ariaProps : AriaProps;
  screenReaderId : option string;      (* undefined unless assigned *)
  sortString : option string;          (* undefined unless assigned *)
}.

(** [cols.map(col => `Sorted by ${col.id} ${col.direction}`).join(' then ')] *)
Definition sortSummary (cols : list SortColumn) : string :=
  String.concat " then "
    (map (fun col => ("Sorted by " +:+ sort_id col +:+ " " +:+ direction col)%string) cols).

(** The block guarded by [if (sorting)].  [freshId] is the id returned by
    [htmlIdGenerator()()], a service outside this file. *)
Definition sortAria (freshId : string) (sorting : option (list SortColumn))
    (id : string) : SortAria :=
  match sorting with
  | None => mkSortAria (mkAriaProps None None) None None
  | Some columns =>
      let sortedColumnIds := map sort_id columns in
      let has_id := existsb (String.eqb id) sortedColumnIds in
      if (length columns =? 1)%nat && has_id then
        let sortDirection := match columns with c0 :: _ => direction c0 | [] => EmptyString end in
        let sortValue :=
          if String.eqb sortDirection "asc" then "ascending"%string
          else if String.eqb sortDirection "desc" then "descending"%string
          else "other"%string in
        mkSortAria (mkAriaProps (Some sortValue) None) None None
      else if (2 <=? length columns)%nat && has_id then
        mkSortAria (mkAriaProps None (Some freshId)) (Some freshId)
                   (Some (sortSummary columns))
      else mkSortAria (mkAriaProps None None) None None
  end.

(** The node inside [EuiScreenReaderOnly]: [<div id={screenReaderId}>{sortString}</div>]. *)
Record HiddenNode := mkHiddenNode {
  node_id : option string;
  node_text : option string;
}.

(** What the component returns, as far as focus and ARIA are concerned. *)
Record Rendered := mkRendered {
  role : string;
  rendered_aria : AriaProps;
  rendered_tabIndex : Z;
  data_test_subj : string;
  content : string;                       (* display || id *)
  screenReaderOnly : option HiddenNode;   (* sorting && sorting.columns.length >= 2 *)
}.

Definition render (freshId : string) (p : Props) : Rendered :=
  let sa := sortAria freshId (sorting p) (id (column p)) in
  mkRendered "columnheader" (ariaProps sa) (renderedTabIndex p)
    ("dataGridHeaderCell-" +:+ id (column p))%string
    (match display (column p) with
     | Some d => if String.eqb d EmptyString then id (column p) else d
     | None => id (column p)
     end)
    (match sorting p with
     | Some columns =>
         if (2 <=? length columns)%nat
         then Some (mkHiddenNode (screenReaderId sa) (sortString sa))
         else None
     | None => None
     end).

(** ** Layout: width, resize handle, class names *)

(** The props the layout of the container is computed from, beside the
    column id.  Widths are whole pixels. *)
Record LayoutProps := mkLayoutProps {
  columnWidths : gmap string Z;            (* column id -> width *)
  defaultColumnWidth : option Z;           (* number, null or absent *)
  schema : gmap string (option string);    (* column id -> columnType, a string or null *)
  isResizable : option bool;               (* column.isResizable, when given *)
  className : option string;
}.

(** [columnWidths[id] || defaultColumnWidth]: an absent entry and the
    width 0 are falsy. *)
Definition width (lp : LayoutProps) (id : string) : option Z :=
  match columnWidths lp !! id with
  | Some w => if w =? 0 then defaultColumnWidth lp else Some w
  | None => defaultColumnWidth lp
  end.

(** [schema[id] ? schema[id].columnType : null] *)
Definition columnType (lp : LayoutProps) (id : string) : option string :=
  match schema lp !! id with
  | Some entry => entry
  | None => None
  end.

(** A string is truthy unless it is empty. *)
Definition truthy (s : string) : bool := negb (String.eqb s EmptyString).

(** [classnames('euiDataGridHeaderCell',
                {[`euiDataGridHeaderCell--${columnType}`]: columnType}, className)]:
    the class names the call keeps, in order. *)
Definition classes (lp : LayoutProps) (id : string) : list string :=
  ["euiDataGridHeaderCell"%string]
  ++ match columnType lp id with
     | Some t => if truthy t then [("euiDataGridHeaderCell--" +:+ t)%string] else []
     | None => []
     end
  ++ match className lp with
     | Some cn => if truthy cn then [cn] else []
     | None => []
     end.

Definition zToString (z : Z) : string := NilZero.string_of_int (Z.to_int z).

(** [style={width != null ? { width: `${width}px` } : {}}]: the width of
    the style, when it has one. *)
Definition styleWidth (lp : LayoutProps) (id : string) : option string :=
  match width lp id with
  | Some w => Some (zToString w +:+ "px")%string
  | None => None
  end.

(** The props handed to [EuiDataGridColumnResizer]. *)
Record Resizer := mkResizer { columnId : string; columnWidth : Z }.

(** [column.isResizable !== false && width != null ? <EuiDataGridColumnResizer .../> : null] *)
Definition resizer (lp : LayoutProps) (id : string) : option Resizer :=
  match isResizable lp, width lp id with
  | Some false, _ => None
  | _, Some w => Some (mkResizer id w)
  | _, None => None
  end.

(** * Notions used in the statements *)

(** ** Attribute loops, element by element *)

(** What a loop over the matches of [p] does to one element. *)
Definition onMatch (p : Element -> bool) (body : Element -> Element)
    (e : Element) : Element :=
  if p e then body e else e.

(** What [enableInteractives] and [disableInteractives] do to one element. *)
Definition enabled (e : Element) : Element := onMatch tabManaged (setTabIndex 0) e.
Definition disabled (e : Element) : Element :=
  onMatch isTabbable (fun element => setTabIndex (-1) (setTabManaged element)) e.

(** ** Settled subtrees *)

(** In every settled state: an element that was never marked is not
    tabbable; while the cell is collapsed no descendant is tabbable; while
    it is entered every marked descendant has tabIndex 0. *)
Definition settledElement (entered : bool) (e : Element) : Prop :=
  (tabManaged e = false -> isTabbable e = false)
  /\ (if entered then tabManaged e = true -> tabIndexAttr e = Some 0
      else isTabbable e = false).

Definition settled (entered : bool) (l : Subtree) : Prop :=
  Forall (settledElement entered) l.

(** [c'] differs from [c] at most in the React state, the DOM focus and the
    logs: the subtree and what was rendered on the container are the same. *)
Definition sameDom (c c' : Cell) : Prop :=
  mounted c' = mounted c /\ props c' = props c
  /\ containerTabIndex c' = containerTabIndex c /\ children c' = children c.

(** The invariant of a cell: its subtree is settled for its mode, and the
    container carries the tabIndex of the latest render. *)
Definition cellInvariant (c : Cell) : Prop :=
  settled (isCellEntered c) (children c)
  /\ containerTabIndex c = renderedTabIndex (props c).

(** ** Tab stops and focus *)

(** The number of elements of the cell, container included, that sequential
    tab navigation reaches. *)
Definition reachableCount (c : Cell) : nat :=
  Nat.add (if 0 <=? containerTabIndex c then 1%nat else 0%nat)
          (length (tabbable (children c))).

(** A descendant that was marked tab-managed and is visible and enabled. *)
Definition managedUsable (e : Element) : bool := tabManaged e && usable e.


Definition isBlur (cb : Deferred) : bool :=
  match cb with DeferredBlur => true | DeferredFocusCheck => false end.

(** The DOM focus after the container was blurred. *)
Definition blurred (f : Focus) : Focus :=
  match f with OnContainer => Elsewhere | _ => f end.

(** [c'] is [c] with attributes of the nodes in [scanned] rewritten: the
    subtree has the same elements, of the same kind, and an element outside
    [scanned] is untouched; nothing but the subtree and the console differs. *)
Definition attributesOnly (scanned : NodeList) (c c' : Cell) : Prop :=
  mounted c' = mounted c /\ props c' = props c
  /\ isCellEntered c' = isCellEntered c
  /\ containerTabIndex c' = containerTabIndex c
  /\ activeElement c' = activeElement c
  /\ focusRequests c' = focusRequests c
  /\ frames c' = frames c /\ uncaught c' = uncaught c
  /\ length (children c') = length (children c)
  /\ forall n e, children c !! n = Some e ->
       exists e', children c' !! n = Some e'
                  /\ nativelyTabbable e' = nativelyTabbable e
                  /\ usable e' = usable e
                  /\ (n ∉ scanned -> e' = e).

(** [e'] is a later state of the element [e]: if [e] carried the marker,
    [e'] carries it. *)
Definition keepsMarker (e e' : Element) : Prop :=
  tabManaged e = true -> tabManaged e' = true.

Definition markersKept (l l' : Subtree) : Prop := Forall2 keepsMarker l l'.

(** ** The sort summary, as designed *)

(** The summary as the design words it: one phrase
    "Sorted by <id> <direction>" per sort entry, in sequence order, with
    " then " between consecutive phrases. *)
Fixpoint sortedByThen (cols : list SortColumn) : string :=
  match cols with
  | [] => EmptyString
  | col :: rest =>
      let phrase := ("Sorted by " +:+ sort_id col +:+ " " +:+ direction col)%string in
      match rest with
      | [] => phrase
      | _ :: _ => (phrase +:+ " then " +:+ sortedByThen rest)%string
      end
  end.

(** ** Notions for whole runs *)

(** An element that is, or was when it got its marker, a tab stop of its
    own: visible, enabled, and either marked or with a non-negative tab
    order. *)
Definition interactive (e : Element) : bool :=
  usable e && (tabManaged e || (0 <=? tabIndex e)).

(** [c'] has the subtree and the console of [c]. *)
Definition sameSubtreeAndConsole (c c' : Cell) : Prop :=
  children c' = children c /\ console c' = console c.

(** What no event changes once the cell has unmounted. *)
Definition frozen (c c' : Cell) : Prop :=
  mounted c' = false /\ props c' = props c
  /\ isCellEntered c' = isCellEntered c
  /\ containerTabIndex c' = containerTabIndex c
  /\ children c' = children c
  /\ console c' = console c
  /\ focusRequests c' = focusRequests c.

(** The event leaves at most one interactive element in the subtree, if
    the subtree had at most one: a render that commits more is the one event
    that does not. *)
Definition rendersAtMostOneInteractive (ev : LifeEvent) : bool :=
  match ev with
  | Keeping _ => true
  | Render _ dom => (length (List.filter interactive dom) <=? 1)%nat
  end.

Definition isUnmount (ev : Event) : bool :=
  match ev with Unmount => true | _ => false end.

(** The event leaves the header interactive: a render with
    headerIsInteractive false is the one event that does not. *)
Definition keepsHeaderInteractive (ev : Event) : bool :=
  match ev with Rerender p => headerIsInteractive p | _ => true end.

(** An anchor with an explicit tab order of 5. *)
Definition link5 : Element := mkElement true true (Some 5) false.

(** ** Example cells *)

Definition button : Element := mkElement true true None false.
Definition label : Element := mkElement false true None false.

Definition ageColumn : Column := mkColumn "age" None.

(** The cell of column 0, focused or not, in an interactive header. *)
Definition focusedProps : Props := mkProps ageColumn 0 None (Some (0, -1)) 0 true.
Definition unfocusedProps : Props := mkProps ageColumn 0 None None 0 true.
(** The same cell in a header that rejects focus. *)
Definition inertProps : Props := mkProps ageColumn 0 None None 0 false.

(** * Properties *)

(** ** Node lists and attribute loops *)

Section NodeLists.
Variable p : Element -> bool.
Variable body : Element -> Element.

Lemma forEachNode_scan_from (pre l : Subtree) :
  forEachNode body (scan p (length pre) l) (pre ++ l) = pre ++ map (onMatch p body) l.
Proof.
  revert pre. induction l as [|e l IH]; intros pre; simpl.
  - reflexivity.
  - unfold onMatch at 1. destruct (p e) eqn:Hp.
    + unfold forEachNode. simpl.
      replace (alter body (length pre) (pre ++ e :: l)) with ((pre ++ [body e]) ++ l).
      * specialize (IH (pre ++ [body e])).
        rewrite length_app in IH. simpl in IH.
        replace (length pre + 1)%nat with (S (length pre)) in IH by lia.
        unfold forEachNode in IH. rewrite IH. now rewrite <- app_assoc.
      * rewrite <- app_assoc. simpl.
        rewrite alter_app_r_alt by lia. now rewrite Nat.sub_diag.
    + specialize (IH (pre ++ [e])).
      rewrite length_app in IH. simpl in IH.
      replace (length pre + 1)%nat with (S (length pre)) in IH by lia.
      rewrite <- app_assoc in IH. simpl in IH. rewrite IH.
      now rewrite <- app_assoc.
Qed.

(** The loop rewrites exactly the elements the query returned. *)
Lemma forEachNode_scan (l : Subtree) :
  forEachNode body (scan p 0 l) l = map (onMatch p body) l.
Proof. exact (forEachNode_scan_from [] l). Qed.

Lemma scan_length (i : nat) (l : Subtree) :
  length (scan p i l) = length (List.filter p l).
Proof.
  revert i. induction l as [|e l IH]; intros i; simpl; [reflexivity|].
  destruct (p e); simpl; now rewrite IH.
Qed.

Lemma scan_nil (i : nat) (l : Subtree) :
  scan p i l = [] <-> Forall (fun e => p e = false) l.
Proof.
  revert i. induction l as [|e l IH]; intros i; simpl.
  - split; [constructor | reflexivity].
  - destruct (p e) eqn:Hp.
    + split; [discriminate|]. intros H. inversion H; congruence.
    + rewrite IH. split; [now constructor | intros H; now inversion H].
Qed.

(** Every position in the result holds an element that satisfies [p]. *)
Lemma scan_lookup (i n : nat) (l : Subtree) :
  n ∈ scan p i l <-> (i <= n)%nat /\ exists e, l !! (n - i)%nat = Some e /\ p e = true.
Proof.
  revert i. induction l as [|e l IH]; intros i; simpl.
  - split; [intros H; inversion H | intros (_ & e & H & _); discriminate].
  - assert (Hrest : n ∈ scan p (S i) l <->
              (S i <= n)%nat /\ exists e', (e :: l) !! (n - i)%nat = Some e' /\ p e' = true).
    { rewrite IH. split; intros (Hle & e' & Hl & He'); split; try lia; exists e'; split; auto.
      - replace (n - i)%nat with (S (n - S i)) by lia. exact Hl.
      - replace (n - i)%nat with (S (n - S i)) in Hl by lia. exact Hl. }
    destruct (p e) eqn:Hp.
    + rewrite elem_of_cons, Hrest. split.
      * intros [-> | (Hle & e' & Hl & He')].
        -- split; [lia|]. exists e. now rewrite Nat.sub_diag.
        -- split; [lia|]. now exists e'.
      * intros (Hle & e' & Hl & He').
        destruct (decide (n = i)) as [->|Hne]; [now left|].
        right. split; [lia|]. now exists e'.
    + rewrite Hrest. split.
      * intros (Hle & e' & Hl & He'). split; [lia|]. now exists e'.
      * intros (Hle & e' & Hl & He').
        destruct (decide (n = i)) as [->|Hne].
        -- rewrite Nat.sub_diag in Hl. simpl in Hl. congruence.
        -- split; [lia|]. now exists e'.
Qed.
End NodeLists.

Lemma children_enableInteractives (c : Cell) :
  children (enableInteractives c) = map enabled (children c).
Proof. unfold enableInteractives. simpl. apply forEachNode_scan. Qed.

Lemma children_disableInteractives (c : Cell) :
  children (disableInteractives c) = map disabled (children c).
Proof.
  unfold disableInteractives. simpl.
  destruct (1 <? length (tabbable (children c)))%nat; simpl; apply forEachNode_scan.
Qed.

Lemma isTabbable_disabled (e : Element) : isTabbable (disabled e) = false.
Proof.
  unfold disabled, onMatch. destruct (isTabbable e) eqn:H; [|exact H].
  unfold isTabbable, tabIndex. simpl. apply andb_false_r.
Qed.

Lemma tabManaged_disabled (e : Element) :
  tabManaged (disabled e) = tabManaged e || isTabbable e.
Proof.
  unfold disabled, onMatch. destruct (isTabbable e); simpl;
    [now rewrite orb_true_r | now rewrite orb_false_r].
Qed.

Lemma tabManaged_enabled (e : Element) : tabManaged (enabled e) = tabManaged e.
Proof. unfold enabled, onMatch. now destruct (tabManaged e) eqn:H. Qed.

Lemma usable_enabled (e : Element) : usable (enabled e) = usable e.
Proof. unfold enabled, onMatch. now destruct (tabManaged e). Qed.

Lemma usable_disabled (e : Element) : usable (disabled e) = usable e.
Proof. unfold disabled, onMatch. now destruct (isTabbable e). Qed.

Lemma enabled_idem (e : Element) : enabled (enabled e) = enabled e.
Proof. unfold enabled, onMatch. destruct (tabManaged e) eqn:H; simpl; now rewrite ?H. Qed.

Lemma disabled_idem (e : Element) : disabled (disabled e) = disabled e.
Proof.
  pose proof (isTabbable_disabled e) as H.
  unfold disabled at 1. unfold onMatch. now rewrite H.
Qed.

Lemma tabbable_disabled (l : Subtree) : tabbable (map disabled l) = [].
Proof.
  apply scan_nil. apply Forall_forall. intros e He.
  apply list_elem_of_fmap in He as (e0 & -> & _). apply isTabbable_disabled.
Qed.

Lemma enableInteractives_eq (c : Cell) :
  enableInteractives c = with_children (map enabled (children c)) c.
Proof. unfold enableInteractives. f_equal. apply forEachNode_scan. Qed.

Lemma disableInteractives_eq (c : Cell) :
  disableInteractives c =
  with_children (map disabled (children c))
    (if (1 <? length (tabbable (children c)))%nat
     then console_warn (tabbableWarning (length (tabbable (children c)))) c
     else c).
Proof.
  unfold disableInteractives.
  destruct (1 <? length (tabbable (children c)))%nat; simpl; f_equal; apply forEachNode_scan.
Qed.

Lemma lookup_map (f : Element -> Element) (l : Subtree) (n : nat) :
  map f l !! n = f <$> l !! n.
Proof. exact (list_lookup_fmap f l n). Qed.

Lemma scan_ext (p q : Element -> bool) (i : nat) (l : Subtree) :
  Forall (fun e => p e = q e) l -> scan p i l = scan q i l.
Proof.
  revert i. induction l as [|e l IH]; intros i H; simpl; [reflexivity|].
  inversion H as [|? ? He Hl]; subst. rewrite He, (IH (S i) Hl). reflexivity.
Qed.

Lemma scan_map (p : Element -> bool) (f : Element -> Element) (i : nat) (l : Subtree) :
  scan p i (map f l) = scan (fun e => p (f e)) i l.
Proof.
  revert i. induction l as [|e l IH]; intros i; simpl; [reflexivity|].
  now rewrite IH.
Qed.

(** ** The effect keyed on [isCellEntered] *)

(** The effect touches the subtree, the DOM focus and the console only. *)
Lemma enteredEffect_frame (c : Cell) :
  mounted (enteredEffect c) = mounted c
  /\ props (enteredEffect c) = props c
  /\ isCellEntered (enteredEffect c) = isCellEntered c
  /\ containerTabIndex (enteredEffect c) = containerTabIndex c
  /\ focusRequests (enteredEffect c) = focusRequests c
  /\ frames (enteredEffect c) = frames c
  /\ uncaught (enteredEffect c) = uncaught c.
Proof.
  unfold enteredEffect. destruct (mounted c) eqn:Hm; [|repeat split; congruence].
  destruct (isCellEntered c) eqn:He.
  - rewrite enableInteractives_eq.
    destruct (tabbable _); simpl; repeat split; congruence.
  - rewrite disableInteractives_eq.
    destruct (1 <? _)%nat; simpl; repeat split; congruence.
Qed.

Lemma children_enteredEffect (c : Cell) :
  children (enteredEffect c) =
  if mounted c
  then if isCellEntered c then map enabled (children c) else map disabled (children c)
  else children c.
Proof.
  unfold enteredEffect. destruct (mounted c); [|reflexivity].
  destruct (isCellEntered c).
  - rewrite enableInteractives_eq. now destruct (tabbable _).
  - apply children_disableInteractives.
Qed.

Lemma activeElement_enteredEffect (c : Cell) :
  activeElement (enteredEffect c) =
  if mounted c && isCellEntered c
  then match tabbable (map enabled (children c)) with
       | first :: _ => OnChild first
       | [] => activeElement c
       end
  else activeElement c.
Proof.
  unfold enteredEffect. destruct (mounted c); [|reflexivity].
  destruct (isCellEntered c); cbn [andb].
  - rewrite enableInteractives_eq. cbn [children with_children].
    now destruct (tabbable (map enabled (children c))).
  - rewrite disableInteractives_eq. now destruct (1 <? _)%nat.
Qed.

(** ** The invariant of the subtree *)

Lemma settled_disabled (l : Subtree) : settled false (map disabled l).
Proof.
  apply Forall_forall. intros e He.
  apply list_elem_of_fmap in He as (e0 & -> & _).
  split; intros; apply isTabbable_disabled.
Qed.

Lemma settled_enabled (b : bool) (l : Subtree) :
  settled b l -> settled true (map enabled l).
Proof.
  intros H. apply Forall_forall. intros e He.
  apply list_elem_of_fmap in He as (e0 & -> & He0).
  pose proof (proj1 (Forall_forall _ _) H e0 He0) as [Hu _].
  unfold enabled, onMatch. destruct (tabManaged e0) eqn:Hm; split; simpl.
  - intros; congruence.
  - reflexivity.
  - intros _. now apply Hu.
  - intros; congruence.
Qed.

Lemma settled_enteredEffect (b : bool) (c : Cell) :
  mounted c = true -> settled b (children c) ->
  settled (isCellEntered c) (children (enteredEffect c)).
Proof.
  intros Hm H. rewrite children_enteredEffect, Hm.
  destruct (isCellEntered c); [now apply settled_enabled with b | apply settled_disabled].
Qed.

Lemma isCellEntered_commit (prev : bool) (c : Cell) :
  isCellEntered (commit prev c) = isCellEntered c.
Proof. unfold commit. destruct (Bool.eqb _ _); [reflexivity | apply enteredEffect_frame]. Qed.

Lemma commit_frame (prev : bool) (c : Cell) :
  mounted (commit prev c) = mounted c
  /\ props (commit prev c) = props c
  /\ containerTabIndex (commit prev c) = containerTabIndex c
  /\ focusRequests (commit prev c) = focusRequests c
  /\ frames (commit prev c) = frames c
  /\ uncaught (commit prev c) = uncaught c.
Proof.
  unfold commit. destruct (Bool.eqb _ _); [tauto|].
  pose proof (enteredEffect_frame c). tauto.
Qed.

Lemma settled_commit (prev : bool) (c : Cell) :
  mounted c = true -> settled prev (children c) ->
  settled (isCellEntered (commit prev c)) (children (commit prev c)).
Proof.
  intros Hm H. rewrite isCellEntered_commit. unfold commit.
  destruct (Bool.eqb prev (isCellEntered c)) eqn:E.
  - apply Bool.eqb_prop in E. now subst.
  - now apply settled_enteredEffect with prev.
Qed.

(** ** What listeners and the second effect leave alone *)

Ltac same_dom :=
  repeat match goal with
         | |- context [if ?b then _ else _] => destruct b eqn:?
         | |- context [match ?f with OnContainer => _ | _ => _ end] => destruct f eqn:?
         end;
  repeat split; simpl; congruence.

Lemma sameDom_focusedEffect (c : Cell) : sameDom c (focusedEffect c).
Proof. unfold sameDom, focusedEffect. same_dom. Qed.

Lemma sameDom_onFocusIn (c : Cell) : sameDom c (onFocusIn c).
Proof. unfold sameDom, onFocusIn. same_dom. Qed.

Lemma sameDom_onFocusOut (c : Cell) : sameDom c (onFocusOut c).
Proof. unfold sameDom, onFocusOut. same_dom. Qed.

Lemma sameDom_onKeyUp (k : Key) (c : Cell) : sameDom c (onKeyUp k c).
Proof. unfold sameDom, onKeyUp. destruct k; same_dom. Qed.

Lemma cellInvariant_commit (c c' : Cell) :
  mounted c = true -> cellInvariant c -> sameDom c c' ->
  cellInvariant (commit (isCellEntered c) c').
Proof.
  intros Hm [Hs Ht] (Hm' & Hp & Hc & Hd). split.
  - apply settled_commit; congruence.
  - destruct (commit_frame (isCellEntered c) c') as (_ & Hp' & Hc' & _). congruence.
Qed.

Lemma cellInvariant_dispatch (listener : Cell -> Cell) (c : Cell) :
  (forall s, sameDom s (listener s)) ->
  cellInvariant c -> cellInvariant (dispatch listener c).
Proof.
  intros Hl Hc. unfold dispatch. destruct (mounted c) eqn:Hm; [|exact Hc].
  now apply cellInvariant_commit.
Qed.

Lemma cellInvariant_mount (p : Props) (dom : Subtree) (active : Focus) :
  cellInvariant (mount p dom active).
Proof.
  unfold mount.
  set (c0 := mkCell true p false (renderedTabIndex p) dom active [] [] [] []).
  destruct (enteredEffect_frame c0) as (Hm & Hp & He & Ht & _).
  assert (H1 : cellInvariant (enteredEffect c0)).
  { split.
    - rewrite He, children_enteredEffect. simpl. apply settled_disabled.
    - now rewrite Ht, Hp. }
  change false with (isCellEntered c0). rewrite <- He.
  apply cellInvariant_commit; [now rewrite Hm | exact H1 | apply sameDom_focusedEffect].
Qed.

Lemma cellInvariant_rerender (p : Props) (c : Cell) :
  cellInvariant c -> cellInvariant (rerender p c).
Proof.
  intros [Hs Ht]. unfold rerender. destruct (mounted c) eqn:Hm; [|now split].
  set (c1 := mkCell true p (isCellEntered c) (renderedTabIndex p) (children c)
                    (activeElement c) (console c) (focusRequests c) (frames c)
                    (uncaught c)).
  assert (H1 : cellInvariant c1) by (split; [exact Hs | reflexivity]).
  change (isCellEntered c) with (isCellEntered c1).
  apply cellInvariant_commit; [reflexivity | exact H1 |].
  destruct (sameDeps (props c) p); [repeat split | apply sameDom_focusedEffect].
Qed.

Lemma cellInvariant_runDeferred (cb : Deferred) (c c' : Cell) :
  cellInvariant c -> runDeferred cb c = inr c' -> cellInvariant c'.
Proof.
  intros Hc. destruct cb; simpl.
  - destruct (mounted c); [|discriminate]. intros [= <-].
    unfold blurContainer. destruct (activeElement c); exact Hc.
  - destruct (mounted c) eqn:Hm; [|now intros [= <-]].
    destruct (Bool.eqb _ _); intros [= <-]; [|exact Hc].
    apply cellInvariant_commit; [exact Hm | exact Hc | repeat split].
Qed.

Lemma cellInvariant_runCallbacks (cbs : list Deferred) (c : Cell) :
  cellInvariant c -> cellInvariant (runCallbacks cbs c).
Proof.
  revert c. induction cbs as [|cb cbs IH]; intros c Hc; simpl; [exact Hc|].
  apply IH. destruct (runDeferred cb c) as [err|c'] eqn:E.
  - exact Hc.
  - now apply cellInvariant_runDeferred with cb c.
Qed.

Lemma cellInvariant_step (ev : Event) (c : Cell) :
  cellInvariant c -> cellInvariant (step ev c).
Proof.
  intros Hc. destruct ev; simpl.
  - now apply cellInvariant_rerender.
  - apply cellInvariant_dispatch; [apply sameDom_onFocusIn | exact Hc].
  - apply cellInvariant_dispatch; [apply sameDom_onFocusOut | exact Hc].
  - apply cellInvariant_dispatch; [apply sameDom_onKeyUp | exact Hc].
  - unfold animationFrame. apply cellInvariant_runCallbacks. exact Hc.
  - exact Hc.
  - exact Hc.
Qed.

Lemma reachable_cellInvariant (c : Cell) : reachable c -> cellInvariant c.
Proof.
  induction 1 as [p dom active | ev c _ IH].
  - apply cellInvariant_mount.
  - now apply cellInvariant_step.
Qed.

(** ** Tab-reachability controller *)

(** C5: disableInteractives, applied to a cell whose subtree holds more
    than one tabbable element, logs one warning that names their number,
    throws nothing, and leaves every one of them marked tab-managed with
    tabIndex -1. *)
Theorem disableInteractives_warns_and_marks_all (c : Cell) :
  (1 < length (tabbable (children c)))%nat ->
  console (disableInteractives c)
    = console c ++ [tabbableWarning (length (tabbable (children c)))]
  /\ uncaught (disableInteractives c) = uncaught c
  /\ forall n, n ∈ tabbable (children c) ->
       exists e', children (disableInteractives c) !! n = Some e'
                  /\ tabManaged e' = true /\ tabIndex e' = -1.
Proof.
  intros Hlen. rewrite disableInteractives_eq.
  apply Nat.ltb_lt in Hlen. rewrite Hlen. simpl. repeat split.
  intros n Hn. apply scan_lookup in Hn as (_ & e & He & Ht).
  rewrite Nat.sub_0_r in He.
  exists (disabled e). rewrite lookup_map, He. split; [reflexivity|].
  unfold disabled, onMatch. rewrite Ht. split; reflexivity.
Qed.

Lemma disableInteractives_warns_and_marks_all_witness :
  let c := mkCell true focusedProps false 0 [button; label; button] OnContainer [] [] [] [] in
  console (disableInteractives c)
    = ["EuiDataGridHeaderCell expects at most 1 tabbable element, 2 found instead"%string]
  /\ forall n, n ∈ tabbable (children c) ->
       exists e', children (disableInteractives c) !! n = Some e'
                  /\ tabManaged e' = true /\ tabIndex e' = -1.
Proof.
  intros c.
  assert (H : (1 < length (tabbable (children c)))%nat) by (vm_compute; lia).
  destruct (disableInteractives_warns_and_marks_all c H) as (Hw & _ & Hm).
  split; [exact Hw | exact Hm].
Defined.

Lemma attributesOnly_map (p : Element -> bool) (body : Element -> Element)
    (c c' : Cell) :
  (forall e, nativelyTabbable (body e) = nativelyTabbable e /\ usable (body e) = usable e) ->
  mounted c' = mounted c -> props c' = props c ->
  isCellEntered c' = isCellEntered c ->
  containerTabIndex c' = containerTabIndex c ->
  activeElement c' = activeElement c ->
  focusRequests c' = focusRequests c ->
  frames c' = frames c -> uncaught c' = uncaught c ->
  children c' = map (onMatch p body) (children c) ->
  attributesOnly (scan p 0 (children c)) c c'.
Proof.
  intros Hbody ? ? ? ? ? ? ? ? Hch. unfold attributesOnly.
  repeat (split; [assumption|]). split.
  - rewrite Hch. apply length_map.
  - intros n e He. exists (onMatch p body e).
    rewrite Hch, lookup_map, He. split; [reflexivity|].
    unfold onMatch. destruct (p e) eqn:Hp.
    + destruct (Hbody e) as [Hkind Huse]. repeat split; try assumption.
      intros Hn. exfalso. apply Hn. apply scan_lookup. split; [lia|].
      exists e. now rewrite Nat.sub_0_r.
    + repeat split.
Qed.

(** C8: enableInteractives and disableInteractives are idempotent: a
    second application in a row changes nothing.  Each of them rewrites
    attributes (tabIndex, the tab-managed marker) of the elements it scanned
    and touches no other element and nothing else of the DOM. *)
Theorem tab_reachability_operations_idempotent (c : Cell) :
  enableInteractives (enableInteractives c) = enableInteractives c
  /\ disableInteractives (disableInteractives c) = disableInteractives c
  /\ attributesOnly (querySelectorAll_tabManaged (children c)) c (enableInteractives c)
  /\ attributesOnly (tabbable (children c)) c (disableInteractives c).
Proof.
  split; [|split; [|split]].
  - rewrite !enableInteractives_eq. unfold with_children. simpl.
    rewrite map_map. f_equal. apply map_ext. apply enabled_idem.
  - rewrite (disableInteractives_eq (disableInteractives c)).
    rewrite children_disableInteractives, tabbable_disabled. simpl.
    rewrite map_map. rewrite disableInteractives_eq at 2.
    rewrite (map_ext _ _ disabled_idem).
    rewrite disableInteractives_eq.
    destruct (1 <? _)%nat; reflexivity.
  - apply attributesOnly_map with (body := setTabIndex 0);
      try (rewrite enableInteractives_eq; reflexivity).
    intros e. split; reflexivity.
  - apply attributesOnly_map
      with (body := fun element => setTabIndex (-1) (setTabManaged element));
      try (rewrite disableInteractives_eq; destruct (1 <? _)%nat; reflexivity).
    intros e. split; reflexivity.
Qed.

(** ** ARIA sort attributes *)

(** C6: when sorting.columns has exactly one entry and that entry is this
    column, the container carries aria-sort: ascending for direction asc,
    descending for desc, other for any other direction.  In every other
    case (no sorting, another number of entries, another column) the
    container carries no aria-sort. *)
Theorem aria_sort_of_single_sorted_column (freshId : string) (p : Props) :
  (forall col, sorting p = Some [col] -> sort_id col = id (column p) ->
     (direction col = "asc"%string ->
        aria_sort (rendered_aria (render freshId p)) = Some "ascending"%string)
     /\ (direction col = "desc"%string ->
        aria_sort (rendered_aria (render freshId p)) = Some "descending"%string)
     /\ (direction col <> "asc"%string -> direction col <> "desc"%string ->
        aria_sort (rendered_aria (render freshId p)) = Some "other"%string))
  /\ ((forall col, sorting p = Some [col] -> sort_id col <> id (column p)) ->
      aria_sort (rendered_aria (render freshId p)) = None).
Proof.
  unfold render, sortAria. simpl. split.
  - intros col Hs Hid. rewrite Hs. simpl. rewrite <- Hid, String.eqb_refl. simpl.
    repeat split.
    + intros ->. reflexivity.
    + intros ->. reflexivity.
    + intros Ha Hd.
      apply String.eqb_neq in Ha, Hd. now rewrite Ha, Hd.
  - intros Hother. destruct (sorting p) as [cols|]; [|reflexivity].
    destruct cols as [|col [|col2 rest]]; simpl.
    + reflexivity.
    + specialize (Hother col eq_refl).
      assert (E : String.eqb (id (column p)) (sort_id col) = false)
        by (apply String.eqb_neq; congruence).
      now rewrite E.
    + now destruct (_ || _).
Qed.

Lemma aria_sort_of_single_sorted_column_witness :
  aria_sort (rendered_aria (render "sr1"
    (mkProps ageColumn 0 (Some [mkSortColumn "age" "asc"]) None 0 true)))
    = Some "ascending"%string
  /\ aria_sort (rendered_aria (render "sr1"
    (mkProps ageColumn 0 (Some [mkSortColumn "name" "asc"]) None 0 true)))
    = None.
Proof.
  split.
  - destruct (aria_sort_of_single_sorted_column "sr1"
      (mkProps ageColumn 0 (Some [mkSortColumn "age" "asc"]) None 0 true)) as [H _].
    destruct (H (mkSortColumn "age" "asc") eq_refl eq_refl) as [Hasc _].
    apply Hasc. reflexivity.
  - destruct (aria_sort_of_single_sorted_column "sr1"
      (mkProps ageColumn 0 (Some [mkSortColumn "name" "asc"]) None 0 true)) as [_ H].
    apply H. intros col Hs. injection Hs as <-. simpl. discriminate.
Defined.

Lemma sortSummary_sortedByThen (cols : list SortColumn) :
  sortSummary cols = sortedByThen cols.
Proof.
  unfold sortSummary. induction cols as [|col rest IH]; [reflexivity|].
  destruct rest as [|col2 rest]; [reflexivity|].
  change (sortedByThen (col :: col2 :: rest))
    with (("Sorted by " +:+ sort_id col +:+ " " +:+ direction col) +:+ " then "
            +:+ sortedByThen (col2 :: rest))%string.
  rewrite <- IH. reflexivity.
Qed.

(** C7: when sorting.columns has two or more entries and this column is
    among them, the container carries aria-describedby, and the node it
    names is rendered (hidden from sight) with the text
    "Sorted by <id> <direction>" of every entry, in order, joined by
    " then ". *)
Theorem aria_describedby_of_multi_column_sort (freshId : string) (p : Props)
    (cols : list SortColumn) :
  sorting p = Some cols -> (2 <= length cols)%nat ->
  In (id (column p)) (map sort_id cols) ->
  aria_describedby (rendered_aria (render freshId p)) = Some freshId
  /\ aria_sort (rendered_aria (render freshId p)) = None
  /\ screenReaderOnly (render freshId p)
     = Some (mkHiddenNode (Some freshId) (Some (sortedByThen cols))).
Proof.
  intros Hs Hlen Hin. unfold render, sortAria. rewrite Hs.
  assert (Hhas : existsb (String.eqb (id (column p))) (map sort_id cols) = true).
  { apply existsb_exists. exists (id (column p)). split; [exact Hin | apply String.eqb_refl]. }
  assert (H1 : (length cols =? 1)%nat = false) by (apply Nat.eqb_neq; lia).
  assert (H2 : (2 <=? length cols)%nat = true) by (apply Nat.leb_le; lia).
  rewrite Hhas, H1, H2. simpl. rewrite sortSummary_sortedByThen. repeat split.
Qed.

Lemma aria_describedby_of_multi_column_sort_witness :
  let p := mkProps ageColumn 0
             (Some [mkSortColumn "age" "asc"; mkSortColumn "name" "desc"]) None 0 true in
  aria_describedby (rendered_aria (render "sr1" p)) = Some "sr1"%string
  /\ screenReaderOnly (render "sr1" p)
     = Some (mkHiddenNode (Some "sr1"%string)
               (Some "Sorted by age asc then Sorted by name desc"%string)).
Proof.
  intros p.
  assert (Hlen : (2 <= length [mkSortColumn "age" "asc"; mkSortColumn "name" "desc"])%nat)
    by (simpl; lia).
  assert (Hin : In (id (column p))
                   (map sort_id [mkSortColumn "age" "asc"; mkSortColumn "name" "desc"]))
    by (simpl; left; reflexivity).
  destruct (aria_describedby_of_multi_column_sort "sr1" p _ eq_refl Hlen Hin)
    as (Hd & _ & Hn).
  split; [exact Hd | exact Hn].
Defined.

(** ** Frame callbacks *)

(** After the cell has unmounted the deferred focus-loss check does
    nothing, and the deferred blur throws. *)
Lemma runDeferred_unmounted (c : Cell) :
  mounted c = false ->
  runDeferred DeferredFocusCheck c = inr c
  /\ runDeferred DeferredBlur c = inl (TypeError "Cannot read property 'blur' of null").
Proof. intros Hm. simpl. now rewrite Hm. Qed.

(** C3: headerIsInteractive is false; a focusin reaches the cell, the cell
    unmounts, and the frame arrives: the deferred blur dereferences the
    cleared ref and throws.  The deferred focus-loss check, queued the same
    way, finds the ref cleared and does nothing. *)
Theorem deferred_blur_unguarded_after_unmount :
  uncaught (run [FocusIn; Unmount; AnimationFrame] (mount inertProps [button] Elsewhere))
    = [TypeError "Cannot read property 'blur' of null"]
  /\ uncaught (run [FocusOut; Unmount; AnimationFrame] (mount inertProps [button] Elsewhere))
    = [].
Proof. split; reflexivity. Qed.

(** While the cell is mounted a frame callback throws nothing, requests
    nothing of the grid, and moves DOM focus only by blurring the
    container. *)
Lemma runDeferred_mounted (cb : Deferred) (c : Cell) :
  mounted c = true ->
  exists c', runDeferred cb c = inr c'
    /\ mounted c' = true
    /\ focusRequests c' = focusRequests c
    /\ frames c' = frames c
    /\ uncaught c' = uncaught c
    /\ activeElement c' = match cb with
                          | DeferredBlur => activeElement (blurContainer c)
                          | DeferredFocusCheck => activeElement c
                          end.
Proof.
  intros Hm. destruct cb; simpl; rewrite Hm.
  - exists (blurContainer c). unfold blurContainer.
    destruct (activeElement c); repeat split; assumption.
  - destruct (Bool.eqb (containsActiveElement c) false).
    + eexists. split; [reflexivity|].
      destruct (commit_frame (isCellEntered c) (setIsCellEntered false c))
        as (H1 & _ & _ & H2 & H3 & H4).
      rewrite H1, H2, H3, H4. repeat split; try assumption.
      unfold commit. destruct (Bool.eqb _ _); [reflexivity|].
      rewrite activeElement_enteredEffect. simpl. now rewrite andb_false_r.
    + exists c. repeat split; assumption.
Qed.

Lemma activeElement_blurContainer (c : Cell) :
  activeElement (blurContainer c) = blurred (activeElement c).
Proof. unfold blurContainer. now destruct (activeElement c) eqn:E; simpl; rewrite ?E. Qed.

Lemma blurred_idem (f : Focus) : blurred (blurred f) = blurred f.
Proof. now destruct f. Qed.

Lemma runCallbacks_mounted (cbs : list Deferred) (c : Cell) :
  mounted c = true ->
  mounted (runCallbacks cbs c) = true
  /\ focusRequests (runCallbacks cbs c) = focusRequests c
  /\ frames (runCallbacks cbs c) = frames c
  /\ uncaught (runCallbacks cbs c) = uncaught c
  /\ activeElement (runCallbacks cbs c)
     = if existsb isBlur cbs then blurred (activeElement c) else activeElement c.
Proof.
  revert c. induction cbs as [|cb cbs IH]; intros c Hm; simpl; [repeat split; assumption|].
  destruct (runDeferred_mounted cb c Hm) as (c' & -> & Hm' & Hr & Hf & Hu & Ha).
  destruct (IH c' Hm') as (IHm & IHr & IHf & IHu & IHa).
  rewrite IHm, IHr, IHf, IHu, IHa, Hr, Hf, Hu, Ha. repeat split.
  destruct cb; simpl.
  - rewrite activeElement_blurContainer, blurred_idem.
    now destruct (existsb isBlur cbs).
  - reflexivity.
Qed.

(** C4: a focusin reaches a mounted cell.  When headerIsInteractive is
    false the listener asks nothing of the grid and queues a blur of the
    container; on the next animation frame (the cell still mounted) that
    blur has run, the container does not hold DOM focus, and nothing was
    asked of the grid, nor is when the focusout of that blur reaches the
    cell.  When headerIsInteractive is true the listener asks the grid to
    make (index, -1) the focus target. *)
Theorem focusin_bounces_or_requests_focus (c : Cell) :
  mounted c = true ->
  (headerIsInteractive (props c) = false ->
     frames (step FocusIn c) = frames c ++ [DeferredBlur]
     /\ focusRequests (step FocusIn c) = focusRequests c
     /\ activeElement (step AnimationFrame (step FocusIn c))
        = activeElement (blurContainer c)
     /\ activeElement (step AnimationFrame (step FocusIn c)) <> OnContainer
     /\ focusRequests (step AnimationFrame (step FocusIn c)) = focusRequests c
     /\ focusRequests (step FocusOut (step AnimationFrame (step FocusIn c)))
        = focusRequests c)
  /\ (headerIsInteractive (props c) = true ->
     focusRequests (step FocusIn c) = focusRequests c ++ [(index (props c), -1)]
     /\ frames (step FocusIn c) = frames c).
Proof.
  intros Hm.
  assert (Hout : forall s, focusRequests (step FocusOut s) = focusRequests s).
  { intros s. simpl. unfold dispatch. destruct (mounted s); [|reflexivity].
    now destruct (commit_frame (isCellEntered s) (onFocusOut s)) as (_ & _ & _ & -> & _). }
  split; intros Hi.
  - rewrite Hout. simpl. unfold dispatch, onFocusIn. rewrite Hm, Hi. simpl.
    unfold commit. simpl. rewrite Bool.eqb_reflx.
    split; [reflexivity|]. split; [reflexivity|].
    unfold animationFrame. simpl.
    set (c0 := with_frames [] (requestAnimationFrame DeferredBlur c)).
    destruct (runCallbacks_mounted (frames c ++ [DeferredBlur]) c0 Hm)
      as (_ & Hr & _ & _ & Ha).
    assert (Hex : existsb isBlur (frames c ++ [DeferredBlur]) = true).
    { rewrite existsb_app. simpl. apply orb_true_r. }
    rewrite Hex in Ha. rewrite Ha, Hr.
    rewrite activeElement_blurContainer. unfold c0. simpl. repeat split.
    now destruct (activeElement c).
  - simpl. unfold dispatch, onFocusIn. rewrite Hm, Hi. simpl.
    unfold commit. simpl. rewrite Bool.eqb_reflx. split; reflexivity.
Qed.

Lemma focusin_bounces_or_requests_focus_witness :
  let c := with_activeElement OnContainer (mount inertProps [button] Elsewhere) in
  activeElement (step AnimationFrame (step FocusIn c)) = Elsewhere
  /\ focusRequests (step FocusOut (step AnimationFrame (step FocusIn c))) = []
  /\ focusRequests (step FocusIn (mount unfocusedProps [button] Elsewhere)) = [(0, -1)].
Proof.
  intros c.
  destruct (focusin_bounces_or_requests_focus c eq_refl) as [Hoff _].
  destruct (Hoff eq_refl) as (_ & _ & Ha & _ & _ & Hr).
  destruct (focusin_bounces_or_requests_focus
              (mount unfocusedProps [button] Elsewhere) eq_refl) as [_ Hon].
  destruct (Hon eq_refl) as [Hq _].
  split; [exact Ha | split; [exact Hr | exact Hq]].
Defined.

(** ** Tab stops of a cell *)

(** C1, as stated, fails: a cell that is not the logical focus target has
    no tab stop at all, and a focused cell that entered its single
    interactive descendant has two (the container and the descendant).  A
    focused, collapsed cell has two as well once a render, with the same
    focus target, commits a button the first render did not have: the
    disable pass does not run for that render. *)
Lemma exactly_one_tab_stop_counterexample :
  reachableCount (mount unfocusedProps [button] Elsewhere) = 0%nat
  /\ isCellEntered (mount focusedProps [button] Elsewhere) = true
  /\ reachableCount (mount focusedProps [button] Elsewhere) = 2%nat
  /\ isCellEntered (lifeStep (Render focusedProps [button])
                      (mount focusedProps [] Elsewhere)) = false
  /\ reachableCount (lifeStep (Render focusedProps [button])
                       (mount focusedProps [] Elsewhere)) = 2%nat.
Proof. repeat split. Qed.

(** A settled cell: collapsed, it has no tabbable descendant and its
    container is the one tab stop exactly when the cell is focused;
    entered, its tabbable descendants are the usable marked ones. *)
Lemma tab_stops_of_settled_cell (c : Cell) :
  cellInvariant c ->
  (isCellEntered c = false ->
     tabbable (children c) = []
     /\ reachableCount c = if isFocused (props c) then 1%nat else 0%nat)
  /\ (isCellEntered c = true ->
     tabbable (children c) = scan managedUsable 0 (children c)
     /\ forall n e, n ∈ tabbable (children c) -> children c !! n = Some e ->
          tabIndex e = 0).
Proof.
  intros [Hs Ht]. split; intros He.
  - rewrite He in Hs.
    assert (Hnil : tabbable (children c) = []).
    { apply scan_nil. eapply Forall_impl; [exact Hs|]. now intros e [_ H]. }
    split; [exact Hnil|].
    unfold reachableCount. rewrite Hnil, Ht. unfold renderedTabIndex.
    now destruct (isFocused (props c)).
  - rewrite He in Hs. split.
    + apply scan_ext. eapply Forall_impl; [exact Hs|].
      intros e [Hu Hm]. unfold managedUsable.
      destruct (tabManaged e) eqn:E.
      * unfold isTabbable, tabIndex. rewrite (Hm eq_refl). simpl. apply andb_true_r.
      * now apply Hu.
    + intros n e Hn Hl. apply scan_lookup in Hn as (_ & e' & Hl' & Htab).
      rewrite Nat.sub_0_r in Hl'. assert (e' = e) as -> by congruence.
      assert (Hin : e ∈ children c) by (apply list_elem_of_lookup; eauto).
      destruct (proj1 (Forall_forall _ _) Hs e Hin) as [Hu Hm].
      destruct (tabManaged e) eqn:E.
      * unfold tabIndex. now rewrite (Hm eq_refl).
      * rewrite (Hu eq_refl) in Htab. discriminate.
Qed.

(** Events that keep the descendants lead from reachable states to
    reachable states. *)
Lemma reachable_lifeRun (evs : list LifeEvent) (c : Cell) :
  Forall (fun ev => keepsDescendants ev = true) evs ->
  reachable c -> reachable (lifeRun evs c).
Proof.
  intros Hevs. revert c. induction Hevs as [|ev evs Hev _ IH]; intros c Hr; simpl.
  - exact Hr.
  - apply IH. destruct ev as [ev | p dom]; [|discriminate].
    simpl. now apply reachable_step.
Qed.

(** C1 (amended): the cell is rendered a first time, and whatever happens
    next keeps its rendered descendants in place (no render adds, removes
    or replaces one).  Then, while the cell is collapsed, no descendant is
    tabbable and the container is a tab stop exactly when the cell is the
    logical focus target, so the cell has one tab stop when focused and
    none otherwise; while the cell is entered, the tabbable descendants are
    exactly the usable tab-managed ones, each with tabIndex 0. *)
Theorem tab_stops_while_descendants_kept (p : Props) (dom : Subtree)
    (active : Focus) (evs : list LifeEvent) (c : Cell) :
  Forall (fun ev => keepsDescendants ev = true) evs ->
  c = lifeRun evs (mount p dom active) ->
  (isCellEntered c = false ->
     tabbable (children c) = []
     /\ reachableCount c = if isFocused (props c) then 1%nat else 0%nat)
  /\ (isCellEntered c = true ->
     tabbable (children c) = scan managedUsable 0 (children c)
     /\ forall n e, n ∈ tabbable (children c) -> children c !! n = Some e ->
          tabIndex e = 0).
Proof.
  intros Hevs ->. apply tab_stops_of_settled_cell, reachable_cellInvariant.
  apply reachable_lifeRun; [exact Hevs | apply reachable_mount].
Qed.

Lemma tab_stops_while_descendants_kept_witness :
  reachableCount (lifeRun [Keeping (KeyUp ENTER); Keeping (KeyUp ESCAPE);
                           Keeping (Rerender focusedProps)]
                          (mount focusedProps [button; button] Elsewhere)) = 1%nat
  /\ tabbable (children (lifeRun [Keeping (KeyUp ENTER)]
                                 (mount focusedProps [label; button; button] Elsewhere)))
     = [1%nat; 2%nat].
Proof.
  split.
  - assert (Hk : Forall (fun ev => keepsDescendants ev = true)
                   [Keeping (KeyUp ENTER); Keeping (KeyUp ESCAPE);
                    Keeping (Rerender focusedProps)]) by (repeat constructor).
    destruct (tab_stops_while_descendants_kept focusedProps [button; button] Elsewhere
                _ _ Hk eq_refl) as [H _].
    exact (proj2 (H eq_refl)).
  - assert (Hk : Forall (fun ev => keepsDescendants ev = true) [Keeping (KeyUp ENTER)])
      by (repeat constructor).
    destruct (tab_stops_while_descendants_kept focusedProps [label; button; button]
                Elsewhere _ _ Hk eq_refl) as [_ H].
    exact (proj1 (H eq_refl)).
Defined.

(** ** Logical focus target *)




(** ** The F2 key *)

Lemma step_F2_on_container (c : Cell) :
  mounted c = true -> activeElement c = OnContainer ->
  step (KeyUp F2) c = commit (isCellEntered c) (setIsCellEntered true c).
Proof. intros Hm Ha. simpl. unfold dispatch, onKeyUp. now rewrite Hm, Ha. Qed.






(** ** The tab-managed marker *)

Lemma markersKept_refl (l : Subtree) : markersKept l l.
Proof. induction l; constructor; [now intros ? | assumption]. Qed.

Lemma markersKept_trans (l1 l2 l3 : Subtree) :
  markersKept l1 l2 -> markersKept l2 l3 -> markersKept l1 l3.
Proof.
  intros H12. revert l3. induction H12 as [|e1 e2 l1 l2 He H12 IH]; intros l3 H23.
  - inversion H23. constructor.
  - inversion H23 as [|? e3 ? l3' He' H23']; subst. constructor.
    + intros H. apply He'. now apply He.
    + now apply IH.
Qed.

Lemma markersKept_map (f : Element -> Element) (l : Subtree) :
  (forall e, keepsMarker e (f e)) -> markersKept l (map f l).
Proof. intros Hf. induction l; simpl; constructor; [apply Hf | assumption]. Qed.

Lemma markersKept_enteredEffect (c : Cell) :
  markersKept (children c) (children (enteredEffect c)).
Proof.
  rewrite children_enteredEffect.
  destruct (mounted c); [|apply markersKept_refl].
  destruct (isCellEntered c); apply markersKept_map; intros e He.
  - now rewrite tabManaged_enabled.
  - rewrite tabManaged_disabled, He. reflexivity.
Qed.

Lemma markersKept_commit (prev : bool) (c : Cell) :
  markersKept (children c) (children (commit prev c)).
Proof.
  unfold commit. destruct (Bool.eqb _ _);
    [apply markersKept_refl | apply markersKept_enteredEffect].
Qed.

Lemma markersKept_dispatch (listener : Cell -> Cell) (c : Cell) :
  (forall s, sameDom s (listener s)) ->
  markersKept (children c) (children (dispatch listener c)).
Proof.
  intros Hl. unfold dispatch. destruct (mounted c); [|apply markersKept_refl].
  destruct (Hl c) as (_ & _ & _ & Hc). rewrite <- Hc. apply markersKept_commit.
Qed.

Lemma markersKept_runCallbacks (cbs : list Deferred) (c : Cell) :
  markersKept (children c) (children (runCallbacks cbs c)).
Proof.
  revert c. induction cbs as [|cb cbs IH]; intros c; simpl; [apply markersKept_refl|].
  eapply markersKept_trans; [|apply IH].
  destruct cb; simpl.
  - destruct (mounted c); [|apply markersKept_refl].
    unfold blurContainer. destruct (activeElement c); apply markersKept_refl.
  - destruct (mounted c); [|apply markersKept_refl].
    destruct (Bool.eqb _ _); [|apply markersKept_refl].
    change (children c) with (children (setIsCellEntered false c)) at 1.
    apply markersKept_commit.
Qed.

Lemma markersKept_step (ev : Event) (c : Cell) :
  markersKept (children c) (children (step ev c)).
Proof.
  destruct ev; simpl.
  - unfold rerender. destruct (mounted c); [|apply markersKept_refl].
    destruct (sameDeps (props c) p).
    + eapply markersKept_trans; [|apply markersKept_commit]. apply markersKept_refl.
    + eapply markersKept_trans; [|apply markersKept_commit].
      destruct (sameDom_focusedEffect
                  (mkCell true p (isCellEntered c) (renderedTabIndex p) (children c)
                     (activeElement c) (console c) (focusRequests c) (frames c)
                     (uncaught c))) as (_ & _ & _ & Hc).
      rewrite Hc. apply markersKept_refl.
  - apply markersKept_dispatch, sameDom_onFocusIn.
  - apply markersKept_dispatch, sameDom_onFocusOut.
  - apply markersKept_dispatch, sameDom_onKeyUp.
  - unfold animationFrame.
    change (children c) with (children (with_frames [] c)) at 1.
    apply markersKept_runCallbacks.
  - apply markersKept_refl.
  - apply markersKept_refl.
Qed.

Lemma markersKept_run (evs : list Event) (c : Cell) :
  markersKept (children c) (children (run evs c)).
Proof.
  revert c. induction evs as [|ev evs IH]; intros c; simpl; [apply markersKept_refl|].
  eapply markersKept_trans; [apply markersKept_step | apply IH].
Qed.

(** C10: once an element carries the tab-managed marker it carries it after
    any sequence of events.  enableInteractives sets the tabIndex of a
    marked element to 0 and leaves the marker, so the marked elements are
    the same before and after it.  The second effect, run for a focused
    cell, enters the cell exactly when one element is marked, whatever the
    tabIndex of the marked elements; in a subtree where nothing was marked
    yet it finds none. *)
Theorem tab_managed_marker_never_removed (c : Cell) (evs : list Event) :
  (forall n e, children c !! n = Some e -> tabManaged e = true ->
     exists e', children (run evs c) !! n = Some e' /\ tabManaged e' = true)
  /\ (forall n e, children c !! n = Some e -> tabManaged e = true ->
        children (enableInteractives c) !! n = Some (setTabIndex 0 e)
        /\ tabManaged (setTabIndex 0 e) = true /\ tabIndex (setTabIndex 0 e) = 0)
  /\ querySelectorAll_tabManaged (children (enableInteractives c))
     = querySelectorAll_tabManaged (children c)
  /\ (Forall (fun e => tabManaged e = false) (children c) ->
        querySelectorAll_tabManaged (children c) = [])
  /\ (mounted c = true -> isFocused (props c) = true ->
        (length (List.filter tabManaged (children c)) = 1%nat ->
           focusedEffect c = setIsCellEntered true c)
        /\ (length (List.filter tabManaged (children c)) <> 1%nat ->
           focusedEffect c = focusContainer c)).
Proof.
  split; [|split; [|split; [|split]]].
  - intros n e Hl Hm.
    destruct (Forall2_lookup_l _ _ _ _ _ (markersKept_run evs c) Hl) as (e' & Hl' & Hk).
    exists e'. split; [exact Hl' | now apply Hk].
  - intros n e Hl Hm. rewrite children_enableInteractives, lookup_map, Hl. simpl.
    unfold enabled, onMatch. rewrite Hm. repeat split.
  - rewrite children_enableInteractives. unfold querySelectorAll_tabManaged.
    rewrite scan_map. apply scan_ext. apply Forall_forall. intros e _.
    apply tabManaged_enabled.
  - intros Hnone. apply scan_nil. exact Hnone.
  - intros Hm Hf. unfold focusedEffect. rewrite Hm, Hf.
    unfold querySelectorAll_tabManaged. rewrite scan_length. split.
    + intros ->. reflexivity.
    + intros Hne. apply Nat.eqb_neq in Hne. now rewrite Hne.
Qed.

Lemma tab_managed_marker_never_removed_witness :
  let c := mount focusedProps [button] Elsewhere in
  (exists e', children (run [KeyUp ESCAPE; KeyUp ENTER; FocusOut; AnimationFrame] c) !! 0%nat
              = Some e' /\ tabManaged e' = true)
  /\ querySelectorAll_tabManaged (children (mkCell true focusedProps false 0 [button]
                                               Elsewhere [] [] [] [])) = [].
Proof.
  intros c.
  destruct (tab_managed_marker_never_removed c
              [KeyUp ESCAPE; KeyUp ENTER; FocusOut; AnimationFrame]) as (Hkeep & _).
  destruct (tab_managed_marker_never_removed
              (mkCell true focusedProps false 0 [button] Elsewhere [] [] [] []) [])
    as (_ & _ & _ & Hnone & _).
  split.
  - apply (Hkeep 0%nat (mkElement true true (Some 0) true)); reflexivity.
  - apply Hnone. repeat constructor.
Defined.

(** ** First render *)

Lemma isTabbable_enabled_disabled (e : Element) :
  tabManaged e = false -> isTabbable (enabled (disabled e)) = isTabbable e.
Proof.
  intros Hm. unfold disabled, onMatch. destruct (isTabbable e) eqn:Ht.
  - unfold enabled, onMatch. simpl. unfold isTabbable, tabIndex. simpl.
    unfold isTabbable in Ht. apply andb_true_iff in Ht as [-> _]. reflexivity.
  - unfold enabled, onMatch. now rewrite Hm.
Qed.

(** X12: on the first render of a focused cell over a subtree that carries
    no marker yet, the marked elements the second effect counts are the
    tabbable descendants: with exactly one of them the cell is entered and
    that descendant holds DOM focus. *)
Lemma first_render_enters_single_interactive (p : Props) (dom : Subtree)
    (active : Focus) (n : nat) :
  isFocused p = true ->
  Forall (fun e => tabManaged e = false) dom ->
  tabbable dom = [n] ->
  isCellEntered (mount p dom active) = true
  /\ activeElement (mount p dom active) = OnChild n.
Proof.
  intros Hf Hnone Htab. unfold mount.
  set (c0 := mkCell true p false (renderedTabIndex p) dom active [] [] [] []).
  assert (Hd : children (enteredEffect c0) = map disabled dom)
    by (rewrite children_enteredEffect; reflexivity).
  destruct (enteredEffect_frame c0) as (Hm & Hp & He & _).
  assert (Hcount : length (querySelectorAll_tabManaged (children (enteredEffect c0))) = 1%nat).
  { rewrite Hd. unfold querySelectorAll_tabManaged. rewrite scan_map.
    rewrite (scan_ext _ isTabbable).
    - fold (tabbable dom). now rewrite Htab.
    - eapply Forall_impl; [exact Hnone|]. intros e Hm0. simpl.
      rewrite tabManaged_disabled, Hm0. reflexivity. }
  assert (E : focusedEffect (enteredEffect c0) = setIsCellEntered true (enteredEffect c0)).
  { unfold focusedEffect. rewrite Hm, Hp. change (props c0) with p.
    change (mounted c0) with true. cbv iota. rewrite Hf, Hcount. reflexivity. }
  rewrite E. unfold commit. cbn [isCellEntered setIsCellEntered with_isCellEntered Bool.eqb].
  destruct (enteredEffect_frame (setIsCellEntered true (enteredEffect c0)))
    as (_ & _ & He' & _).
  split; [exact He'|].
  rewrite activeElement_enteredEffect.
  cbn [mounted isCellEntered children setIsCellEntered with_isCellEntered].
  rewrite Hm, Hd. simpl andb. cbv iota.
  assert (Ht : tabbable (map enabled (map disabled dom)) = [n]).
  { unfold tabbable. rewrite !scan_map. rewrite (scan_ext _ isTabbable).
    - exact Htab.
    - eapply Forall_impl; [exact Hnone|]. intros e Hm0. simpl.
      now apply isTabbable_enabled_disabled. }
  now rewrite Ht.
Qed.

(** * Further properties of the component *)

(** ** What effects, listeners and callbacks leave alone *)



Lemma console_enteredEffect_entered (c : Cell) :
  isCellEntered c = true -> console (enteredEffect c) = console c.
Proof.
  intros He. unfold enteredEffect. destruct (mounted c); [|reflexivity].
  rewrite He, enableInteractives_eq. now destruct (tabbable _).
Qed.

Ltac same_logs :=
  repeat match goal with
         | |- context [if ?b then _ else _] => destruct b eqn:?
         | |- context [match ?f with OnContainer => _ | _ => _ end] => destruct f eqn:?
         end;
  repeat split; simpl; congruence.

Lemma sameSubtreeAndConsole_focusedEffect (c : Cell) :
  sameSubtreeAndConsole c (focusedEffect c).
Proof. unfold sameSubtreeAndConsole, focusedEffect. same_logs. Qed.

Lemma sameSubtreeAndConsole_onFocusIn (c : Cell) : sameSubtreeAndConsole c (onFocusIn c).
Proof. unfold sameSubtreeAndConsole, onFocusIn. same_logs. Qed.

Lemma sameSubtreeAndConsole_onFocusOut (c : Cell) : sameSubtreeAndConsole c (onFocusOut c).
Proof. unfold sameSubtreeAndConsole, onFocusOut. same_logs. Qed.

Lemma sameSubtreeAndConsole_onKeyUp (k : Key) (c : Cell) :
  sameSubtreeAndConsole c (onKeyUp k c).
Proof. unfold sameSubtreeAndConsole, onKeyUp. destruct k; same_logs. Qed.

(** A property of subtree and console that the effect keyed on
    [isCellEntered] keeps is kept by every event. *)
Section SubtreeInvariant.
Variable P : Subtree -> list string -> Prop.
Hypothesis P_enteredEffect : forall c,
  P (children c) (console c) ->
  P (children (enteredEffect c)) (console (enteredEffect c)).

Lemma invariant_commit (prev : bool) (c : Cell) :
  P (children c) (console c) ->
  P (children (commit prev c)) (console (commit prev c)).
Proof.
  intros H. unfold commit. destruct (Bool.eqb _ _); [exact H | now apply P_enteredEffect].
Qed.

Lemma invariant_dispatch (listener : Cell -> Cell) (c : Cell) :
  (forall s, sameSubtreeAndConsole s (listener s)) ->
  P (children c) (console c) ->
  P (children (dispatch listener c)) (console (dispatch listener c)).
Proof.
  intros Hl H. unfold dispatch. destruct (mounted c); [|exact H].
  apply invariant_commit. destruct (Hl c) as [-> ->]. exact H.
Qed.

Lemma invariant_runCallbacks (cbs : list Deferred) (c : Cell) :
  P (children c) (console c) ->
  P (children (runCallbacks cbs c)) (console (runCallbacks cbs c)).
Proof.
  revert c. induction cbs as [|cb cbs IH]; intros c H; simpl; [exact H|].
  apply IH. destruct cb; simpl.
  - destruct (mounted c); [|exact H].
    unfold blurContainer. now destruct (activeElement c).
  - destruct (mounted c); [|exact H].
    destruct (Bool.eqb _ _); [|exact H].
    apply invariant_commit. exact H.
Qed.

Lemma invariant_step (ev : Event) (c : Cell) :
  P (children c) (console c) ->
  P (children (step ev c)) (console (step ev c)).
Proof.
  intros H. destruct ev; simpl.
  - unfold rerender. destruct (mounted c); [|exact H].
    apply invariant_commit. destruct (sameDeps (props c) p); [exact H|].
    match goal with
    | |- P (children (focusedEffect ?c1)) _ =>
        destruct (sameSubtreeAndConsole_focusedEffect c1) as [-> ->]
    end.
    exact H.
  - apply invariant_dispatch; [apply sameSubtreeAndConsole_onFocusIn | exact H].
  - apply invariant_dispatch; [apply sameSubtreeAndConsole_onFocusOut | exact H].
  - apply invariant_dispatch; [apply sameSubtreeAndConsole_onKeyUp | exact H].
  - unfold animationFrame. apply invariant_runCallbacks. exact H.
  - exact H.
  - exact H.
Qed.

Lemma invariant_run (evs : list Event) (c : Cell) :
  P (children c) (console c) ->
  P (children (run evs c)) (console (run evs c)).
Proof.
  revert c. induction evs as [|ev evs IH]; intros c H; simpl; [exact H|].
  apply IH. now apply invariant_step.
Qed.

Lemma invariant_mount (p : Props) (dom : Subtree) (active : Focus) :
  P dom [] ->
  P (children (mount p dom active)) (console (mount p dom active)).
Proof.
  intros H. unfold mount. apply invariant_commit.
  match goal with
  | |- P (children (focusedEffect ?c1)) _ =>
      destruct (sameSubtreeAndConsole_focusedEffect c1) as [-> ->]
  end.
  apply P_enteredEffect. exact H.
Qed.
End SubtreeInvariant.

(** ** Keys *)


Lemma step_ENTER (c : Cell) :
  mounted c = true ->
  step (KeyUp ENTER) c = commit (isCellEntered c) (setIsCellEntered true c).
Proof. intros Hm. simpl. unfold dispatch. now rewrite Hm. Qed.






(** X3: in a mounted cell that is already entered, Enter changes nothing,
    and neither does F2 while the container holds DOM focus: the state
    update is not a change, so no effect runs and DOM focus is not moved
    to a descendant. *)
Theorem enter_on_entered_cell_is_idle (c : Cell) :
  mounted c = true -> isCellEntered c = true ->
  step (KeyUp ENTER) c = c
  /\ (activeElement c = OnContainer -> step (KeyUp F2) c = c).
Proof.
  intros Hm He. split.
  - rewrite step_ENTER by exact Hm. unfold commit. rewrite He. simpl.
    destruct c; simpl in *; now subst.
  - intros Ha. rewrite step_F2_on_container by assumption.
    unfold commit. rewrite He. simpl. destruct c; simpl in *; now subst.
Qed.

Lemma enter_on_entered_cell_is_idle_witness :
  let c := with_activeElement OnContainer (mount focusedProps [button] Elsewhere) in
  step (KeyUp ENTER) c = c /\ step (KeyUp F2) c = c.
Proof.
  intros c.
  destruct (enter_on_entered_cell_is_idle c eq_refl eq_refl) as [H1 H2].
  split; [exact H1 | apply H2; reflexivity].
Defined.

(** ** Focus events *)



(** X5: in a header that is not interactive, a focusin that bubbles from a
    descendant is not bounced: the deferred blur acts on the container, so
    on the next frame the descendant still holds DOM focus, and the grid
    was asked nothing. *)
Theorem focusin_from_descendant_is_not_bounced (c : Cell) (n : nat) :
  mounted c = true -> headerIsInteractive (props c) = false ->
  activeElement c = OnChild n ->
  activeElement (step AnimationFrame (step FocusIn c)) = OnChild n
  /\ focusRequests (step AnimationFrame (step FocusIn c)) = focusRequests c.
Proof.
  intros Hm Hi Ha.
  assert (E : step FocusIn c = requestAnimationFrame DeferredBlur c).
  { simpl. unfold dispatch, onFocusIn, commit. rewrite Hm, Hi. simpl.
    now rewrite Bool.eqb_reflx. }
  rewrite E. simpl. unfold animationFrame. simpl.
  destruct (runCallbacks_mounted (frames c ++ [DeferredBlur])
              (with_frames [] (requestAnimationFrame DeferredBlur c)) Hm)
    as (_ & Hq & _ & _ & Hact).
  rewrite Hq, Hact. simpl. rewrite Ha. simpl.
  split; [now destruct (existsb _ _) | reflexivity].
Qed.

Lemma focusin_from_descendant_is_not_bounced_witness :
  let c := with_activeElement (OnChild 0) (mount inertProps [button] Elsewhere) in
  activeElement (step AnimationFrame (step FocusIn c)) = OnChild 0.
Proof.
  intros c.
  exact (proj1 (focusin_from_descendant_is_not_bounced c 0%nat eq_refl eq_refl eq_refl)).
Defined.

(** ** After unmount *)

Lemma frozen_refl (c : Cell) : mounted c = false -> frozen c c.
Proof. intros Hm. repeat split. exact Hm. Qed.

Lemma frozen_trans (c1 c2 c3 : Cell) : frozen c1 c2 -> frozen c2 c3 -> frozen c1 c3.
Proof.
  intros (_ & H1) (Hm & H2). split; [exact Hm|].
  destruct H1 as (? & ? & ? & ? & ? & ?), H2 as (? & ? & ? & ? & ? & ?).
  repeat split; congruence.
Qed.

Lemma frozen_runCallbacks (cbs : list Deferred) (c : Cell) :
  mounted c = false -> frozen c (runCallbacks cbs c).
Proof.
  revert c. induction cbs as [|cb cbs IH]; intros c Hm; simpl; [now apply frozen_refl|].
  destruct cb; simpl; rewrite Hm.
  - apply frozen_trans with (reportError (TypeError "Cannot read property 'blur' of null") c).
    + repeat split. exact Hm.
    + apply IH. exact Hm.
  - apply IH. exact Hm.
Qed.

Lemma frozen_step (ev : Event) (c : Cell) :
  mounted c = false -> frozen c (step ev c).
Proof.
  intros Hm. destruct ev; simpl.
  - unfold rerender. rewrite Hm. now apply frozen_refl.
  - unfold dispatch. rewrite Hm. now apply frozen_refl.
  - unfold dispatch. rewrite Hm. now apply frozen_refl.
  - unfold dispatch. rewrite Hm. now apply frozen_refl.
  - unfold animationFrame.
    apply frozen_trans with (with_frames [] c).
    + repeat split. exact Hm.
    + apply frozen_runCallbacks. exact Hm.
  - repeat split. exact Hm.
  - repeat split.
Qed.

(** X6: once the cell has unmounted, no sequence of events (renders,
    focus and key events, frames) mounts it again, changes its mode, writes
    an attribute in its subtree, logs to the console or asks the grid for
    focus. *)
Theorem unmounted_cell_is_frozen (evs : list Event) (c : Cell) :
  mounted c = false -> frozen c (run evs c).
Proof.
  revert c. induction evs as [|ev evs IH]; intros c Hm; simpl.
  - now apply frozen_refl.
  - apply frozen_trans with (step ev c).
    + now apply frozen_step.
    + apply IH. now destruct (frozen_step ev c Hm) as [H _].
Qed.

Lemma unmounted_cell_is_frozen_witness :
  let c := step Unmount (mount focusedProps [button] Elsewhere) in
  frozen c (run [KeyUp ESCAPE; FocusIn; Rerender unfocusedProps; FocusOut; AnimationFrame] c).
Proof.
  intros c.
  exact (unmounted_cell_is_frozen
           [KeyUp ESCAPE; FocusIn; Rerender unfocusedProps; FocusOut; AnimationFrame]
           c eq_refl).
Defined.

(** ** Requests to the grid *)

Lemma focusRequests_focusedEffect (c : Cell) :
  focusRequests (focusedEffect c) = focusRequests c.
Proof. unfold focusedEffect. same_logs. Qed.

Lemma focusRequests_runCallbacks (cbs : list Deferred) (c : Cell) :
  focusRequests (runCallbacks cbs c) = focusRequests c.
Proof.
  revert c. induction cbs as [|cb cbs IH]; intros c; simpl; [reflexivity|].
  rewrite IH. destruct cb; simpl.
  - destruct (mounted c); [|reflexivity].
    unfold blurContainer. now destruct (activeElement c).
  - destruct (mounted c); [|reflexivity].
    destruct (Bool.eqb _ _); [|reflexivity].
    now destruct (commit_frame (isCellEntered c) (setIsCellEntered false c))
      as (_ & _ & _ & -> & _).
Qed.

Lemma focusRequests_step (ev : Event) (c : Cell) :
  focusRequests (step ev c) = focusRequests c
  \/ (ev = FocusIn /\ mounted c = true /\ headerIsInteractive (props c) = true
      /\ focusRequests (step ev c) = focusRequests c ++ [(index (props c), -1)]).
Proof.
  destruct ev; simpl.
  - left. unfold rerender. destruct (mounted c); [|reflexivity].
    match goal with
    | |- focusRequests (commit ?b ?s) = _ =>
        destruct (commit_frame b s) as (_ & _ & _ & -> & _)
    end.
    destruct (sameDeps (props c) p); [reflexivity | now rewrite focusRequests_focusedEffect].
  - unfold dispatch. destruct (mounted c) eqn:Hm; [|now left].
    match goal with
    | |- context [commit ?b ?s] => destruct (commit_frame b s) as (_ & _ & _ & -> & _)
    end.
    unfold onFocusIn. destruct (headerIsInteractive (props c)) eqn:Hi; simpl.
    + right. repeat split.
    + now left.
  - left. unfold dispatch. destruct (mounted c); [|reflexivity].
    now match goal with
    | |- context [commit ?b ?s] => destruct (commit_frame b s) as (_ & _ & _ & -> & _)
    end.
  - left. unfold dispatch. destruct (mounted c); [|reflexivity].
    match goal with
    | |- context [commit ?b ?s] => destruct (commit_frame b s) as (_ & _ & _ & -> & _)
    end.
    unfold onKeyUp. destruct k; same_logs.
  - left. unfold animationFrame. now rewrite focusRequests_runCallbacks.
  - now left.
  - now left.
Qed.

Lemma focusRequests_mount (p : Props) (dom : Subtree) (active : Focus) :
  focusRequests (mount p dom active) = [].
Proof.
  unfold mount.
  match goal with
  | |- focusRequests (commit ?b ?s) = _ =>
      destruct (commit_frame b s) as (_ & _ & _ & -> & _)
  end.
  rewrite focusRequests_focusedEffect.
  now match goal with
  | |- focusRequests (enteredEffect ?s) = _ =>
      destruct (enteredEffect_frame s) as (_ & _ & _ & _ & -> & _)
  end.
Qed.

(** X7: whatever happens to a cell, it asks the grid for focus only from
    the focusin listener of a mounted cell in an interactive header, and
    every request it ever made names the header row, -1. *)
Theorem focus_requests_name_the_header_row (c : Cell) :
  reachable c ->
  Forall (fun target => snd target = -1) (focusRequests c)
  /\ forall ev, focusRequests (step ev c) <> focusRequests c ->
       ev = FocusIn /\ mounted c = true /\ headerIsInteractive (props c) = true
       /\ focusRequests (step ev c) = focusRequests c ++ [(index (props c), -1)].
Proof.
  intros Hr. split.
  - induction Hr as [p dom active | ev c Hr IH].
    + rewrite focusRequests_mount. constructor.
    + destruct (focusRequests_step ev c) as [-> | (_ & _ & _ & ->)]; [exact IH|].
      apply Forall_app. split; [exact IH | repeat constructor].
  - intros ev Hne. destruct (focusRequests_step ev c) as [H | H]; [contradiction | exact H].
Qed.

Lemma focus_requests_name_the_header_row_witness :
  Forall (fun target => snd target = -1)
    (focusRequests (run [FocusIn; KeyUp ENTER; FocusIn]
                        (mount unfocusedProps [button] Elsewhere))).
Proof.
  apply (focus_requests_name_the_header_row
           (run [FocusIn; KeyUp ENTER; FocusIn] (mount unfocusedProps [button] Elsewhere))).
  change (reachable (step FocusIn (step (KeyUp ENTER) (step FocusIn
            (mount unfocusedProps [button] Elsewhere))))).
  repeat apply reachable_step. apply reachable_mount.
Defined.

(** ** Exceptions *)

Lemma mounted_mount (p : Props) (dom : Subtree) (active : Focus) :
  mounted (mount p dom active) = true /\ uncaught (mount p dom active) = []
  /\ frames (mount p dom active) = [] /\ props (mount p dom active) = p.
Proof.
  unfold mount.
  match goal with
  | |- context [commit ?b ?s] =>
      destruct (commit_frame b s) as (-> & -> & _ & _ & -> & ->)
  end.
  match goal with
  | |- context [focusedEffect ?s] =>
      destruct (sameDom_focusedEffect s) as (-> & -> & _);
      assert (Hf : frames (focusedEffect s) = frames s
                   /\ uncaught (focusedEffect s) = uncaught s)
        by (unfold focusedEffect; same_logs);
      destruct Hf as [-> ->]
  end.
  match goal with
  | |- context [enteredEffect ?s] =>
      destruct (enteredEffect_frame s) as (-> & -> & _ & _ & _ & -> & ->)
  end.
  repeat split.
Qed.

Lemma step_stays_mounted (ev : Event) (c : Cell) :
  isUnmount ev = false -> mounted c = true ->
  mounted (step ev c) = true /\ uncaught (step ev c) = uncaught c.
Proof.
  intros Hev Hm. destruct ev; simpl; try discriminate.
  - unfold rerender. rewrite Hm.
    match goal with
    | |- context [commit ?b ?s] =>
        destruct (commit_frame b s) as (-> & _ & _ & _ & _ & ->)
    end.
    destruct (sameDeps (props c) p); [now split|].
    unfold focusedEffect. same_logs.
  - unfold dispatch. rewrite Hm.
    match goal with
    | |- context [commit ?b ?s] =>
        destruct (commit_frame b s) as (-> & _ & _ & _ & _ & ->)
    end.
    unfold onFocusIn. same_logs.
  - unfold dispatch. rewrite Hm.
    match goal with
    | |- context [commit ?b ?s] =>
        destruct (commit_frame b s) as (-> & _ & _ & _ & _ & ->)
    end.
    now split.
  - unfold dispatch. rewrite Hm.
    match goal with
    | |- context [commit ?b ?s] =>
        destruct (commit_frame b s) as (-> & _ & _ & _ & _ & ->)
    end.
    unfold onKeyUp. destruct k; same_logs.
  - unfold animationFrame.
    destruct (runCallbacks_mounted (frames c) (with_frames [] c) Hm)
      as (-> & _ & _ & -> & _).
    now split.
  - now split.
Qed.

(** X8: as long as the cell is not unmounted nothing it does throws:
    after any sequence of events without an unmount the cell is mounted and
    no exception has escaped a frame callback. *)
Theorem mounted_cell_never_throws (p : Props) (dom : Subtree) (active : Focus)
    (evs : list Event) :
  Forall (fun ev => isUnmount ev = false) evs ->
  mounted (run evs (mount p dom active)) = true
  /\ uncaught (run evs (mount p dom active)) = [].
Proof.
  intros Hevs.
  destruct (mounted_mount p dom active) as (Hm & Hu & _).
  revert Hm Hu. generalize (mount p dom active) as c.
  induction Hevs as [|ev evs Hev _ IH]; intros c Hm Hu; simpl; [now split|].
  destruct (step_stays_mounted ev c Hev Hm) as [Hm' Hu'].
  apply IH; congruence.
Qed.

Lemma mounted_cell_never_throws_witness :
  uncaught (run [FocusIn; AnimationFrame; FocusOut; KeyUp ESCAPE; AnimationFrame]
                (mount inertProps [button] OnContainer)) = [].
Proof.
  refine (proj2 (mounted_cell_never_throws inertProps [button] OnContainer
                   [FocusIn; AnimationFrame; FocusOut; KeyUp ESCAPE; AnimationFrame] _)).
  repeat constructor.
Defined.

(** The state of a cell in a header that has always been interactive: no
    blur is waiting for a frame and nothing was thrown. *)
Lemma interactive_header_step (ev : Event) (c : Cell) :
  keepsHeaderInteractive ev = true ->
  headerIsInteractive (props c) = true ->
  Forall (fun cb => cb = DeferredFocusCheck) (frames c) ->
  uncaught c = [] ->
  headerIsInteractive (props (step ev c)) = true
  /\ Forall (fun cb => cb = DeferredFocusCheck) (frames (step ev c))
  /\ uncaught (step ev c) = [].
Proof.
  intros Hev Hi Hf Hu. destruct ev; simpl in *.
  - unfold rerender. destruct (mounted c); [|now repeat split].
    match goal with
    | |- context [commit ?b ?s] =>
        destruct (commit_frame b s) as (_ & -> & _ & _ & -> & ->)
    end.
    destruct (sameDeps (props c) p); [now repeat split|].
    match goal with
    | |- context [focusedEffect ?s] =>
        assert (Hfe : props (focusedEffect s) = props s
                      /\ frames (focusedEffect s) = frames s
                      /\ uncaught (focusedEffect s) = uncaught s)
          by (unfold focusedEffect; same_logs);
        destruct Hfe as (-> & -> & ->)
    end.
    now repeat split.
  - unfold dispatch. destruct (mounted c); [|now repeat split].
    match goal with
    | |- context [commit ?b ?s] =>
        destruct (commit_frame b s) as (_ & -> & _ & _ & -> & ->)
    end.
    unfold onFocusIn. rewrite Hi. simpl. now repeat split.
  - unfold dispatch. destruct (mounted c); [|now repeat split].
    match goal with
    | |- context [commit ?b ?s] =>
        destruct (commit_frame b s) as (_ & -> & _ & _ & -> & ->)
    end.
    simpl. repeat split; try assumption.
    apply Forall_app. split; [exact Hf | repeat constructor].
  - unfold dispatch. destruct (mounted c); [|now repeat split].
    match goal with
    | |- context [commit ?b ?s] =>
        destruct (commit_frame b s) as (_ & -> & _ & _ & -> & ->)
    end.
    assert (Hk : props (onKeyUp k c) = props c /\ frames (onKeyUp k c) = frames c
                 /\ uncaught (onKeyUp k c) = uncaught c)
      by (unfold onKeyUp; destruct k; same_logs).
    destruct Hk as (-> & -> & ->). now repeat split.
  - unfold animationFrame.
    assert (Hrun : forall cbs s,
               Forall (fun cb => cb = DeferredFocusCheck) cbs ->
               props (runCallbacks cbs s) = props s
               /\ frames (runCallbacks cbs s) = frames s
               /\ uncaught (runCallbacks cbs s) = uncaught s).
    { induction cbs as [|cb cbs IH]; intros s Hall; simpl; [now repeat split|].
      inversion Hall as [|? ? -> Hall']; subst. simpl.
      destruct (mounted s); [|now apply IH].
      destruct (Bool.eqb _ _); [|now apply IH].
      destruct (IH (commit (isCellEntered s) (setIsCellEntered false s)) Hall')
        as (-> & -> & ->).
      now destruct (commit_frame (isCellEntered s) (setIsCellEntered false s))
        as (_ & -> & _ & _ & -> & ->). }
    destruct (Hrun (frames c) (with_frames [] c) Hf) as (-> & -> & ->).
    simpl. now repeat split.
  - now repeat split.
  - now repeat split.
Qed.

(** X9: in a header that is interactive from the first render on, no
    exception ever escapes the cell, unmounted or not: the callback that
    dereferences the ref unguarded is queued only while headerIsInteractive
    is false. *)
Theorem interactive_header_never_throws (p : Props) (dom : Subtree) (active : Focus)
    (evs : list Event) :
  headerIsInteractive p = true ->
  Forall (fun ev => keepsHeaderInteractive ev = true) evs ->
  uncaught (run evs (mount p dom active)) = [].
Proof.
  intros Hp Hevs.
  destruct (mounted_mount p dom active) as (_ & Hu & Hf & Hpr).
  assert (Hi : headerIsInteractive (props (mount p dom active)) = true) by now rewrite Hpr.
  assert (Hq : Forall (fun cb => cb = DeferredFocusCheck) (frames (mount p dom active)))
    by (rewrite Hf; constructor).
  clear Hf Hpr. revert Hi Hq Hu. generalize (mount p dom active) as c.
  induction Hevs as [|ev evs Hev _ IH]; intros c Hi Hq Hu; simpl; [exact Hu|].
  destruct (interactive_header_step ev c Hev Hi Hq Hu) as (Hi' & Hq' & Hu').
  now apply IH.
Qed.

Lemma interactive_header_never_throws_witness :
  uncaught (run [FocusIn; FocusOut; Unmount; AnimationFrame]
                (mount focusedProps [button] Elsewhere)) = [].
Proof.
  apply (interactive_header_never_throws focusedProps [button] Elsewhere
           [FocusIn; FocusOut; Unmount; AnimationFrame] eq_refl).
  repeat constructor.
Defined.

(** ** The console *)

Lemma interactive_enabled (e : Element) : interactive (enabled e) = interactive e.
Proof.
  unfold enabled, onMatch. destruct (tabManaged e) eqn:Hm; [|reflexivity].
  unfold interactive. simpl. now rewrite Hm.
Qed.

Lemma interactive_disabled (e : Element) : interactive (disabled e) = interactive e.
Proof.
  unfold disabled, onMatch. destruct (isTabbable e) eqn:Ht; [|reflexivity].
  unfold interactive. simpl. unfold isTabbable in Ht.
  apply andb_true_iff in Ht as [-> ->]. now rewrite orb_true_r.
Qed.

Lemma filter_interactive_map (f : Element -> Element) (l : Subtree) :
  (forall e, interactive (f e) = interactive e) ->
  length (List.filter interactive (map f l)) = length (List.filter interactive l).
Proof.
  intros Hf. induction l as [|e l IH]; simpl; [reflexivity|].
  rewrite Hf. destruct (interactive e); simpl; now rewrite IH.
Qed.

Lemma tabbable_le_interactive (l : Subtree) :
  (length (tabbable l) <= length (List.filter interactive l))%nat.
Proof.
  unfold tabbable. rewrite scan_length.
  induction l as [|e l IH]; simpl; [lia|].
  destruct (isTabbable e) eqn:Ht.
  - assert (Hi : interactive e = true).
    { unfold interactive. unfold isTabbable in Ht.
      apply andb_true_iff in Ht as [-> ->]. now rewrite orb_true_r. }
    rewrite Hi. simpl. lia.
  - destruct (interactive e); simpl; lia.
Qed.

Lemma quiet_enteredEffect (c : Cell) :
  (length (List.filter interactive (children c)) <= 1)%nat /\ console c = [] ->
  (length (List.filter interactive (children (enteredEffect c))) <= 1)%nat
  /\ console (enteredEffect c) = [].
Proof.
  intros [Hn Hc]. split.
  - rewrite children_enteredEffect. destruct (mounted c); [|exact Hn].
    destruct (isCellEntered c).
    + now rewrite (filter_interactive_map _ _ interactive_enabled).
    + now rewrite (filter_interactive_map _ _ interactive_disabled).
  - destruct (isCellEntered c) eqn:He.
    + now rewrite console_enteredEffect_entered.
    + unfold enteredEffect. rewrite He. destruct (mounted c); [|exact Hc].
      rewrite disableInteractives_eq.
      pose proof (tabbable_le_interactive (children c)) as Hle.
      assert (Hlt : (1 <? length (tabbable (children c)))%nat = false)
        by (apply Nat.ltb_ge; lia).
      now rewrite Hlt.
Qed.

(** A property of subtree and console kept by the effect keyed on
    [isCellEntered] is kept by a render that commits descendants with the
    property. *)
Lemma invariant_lifeStep (P : Subtree -> list string -> Prop)
    (P_enteredEffect : forall c, P (children c) (console c) ->
        P (children (enteredEffect c)) (console (enteredEffect c)))
    (ev : LifeEvent) (c : Cell) :
  match ev with
  | Keeping _ => True
  | Render _ dom => P dom (console c)
  end ->
  P (children c) (console c) ->
  P (children (lifeStep ev c)) (console (lifeStep ev c)).
Proof.
  intros Hev H. destruct ev as [ev | p dom]; simpl.
  - now apply invariant_step.
  - apply (invariant_step P P_enteredEffect (Rerender p)).
    unfold reconcile. destruct (mounted c); [exact Hev | exact H].
Qed.

(** X10: a cell whose subtree holds at most one interactive element at its
    first render and after every render that changes its descendants never
    logs the warning, whatever else happens. *)
Theorem single_interactive_cell_never_warns (p : Props) (dom : Subtree)
    (active : Focus) (evs : list LifeEvent) :
  (length (List.filter interactive dom) <= 1)%nat ->
  Forall (fun ev => rendersAtMostOneInteractive ev = true) evs ->
  console (lifeRun evs (mount p dom active)) = [].
Proof.
  intros Hn Hevs.
  set (P := fun (l : Subtree) (log : list string) =>
              (length (List.filter interactive l) <= 1)%nat /\ log = []).
  assert (H0 : P (children (mount p dom active)) (console (mount p dom active))).
  { apply (invariant_mount P quiet_enteredEffect). now split. }
  revert H0. generalize (mount p dom active) as c.
  induction Hevs as [|ev evs Hev _ IH]; intros c H0; simpl; [exact (proj2 H0)|].
  apply IH. apply (invariant_lifeStep P quiet_enteredEffect); [|exact H0].
  destruct ev as [ev | p' dom']; [exact I|].
  simpl in Hev. apply Nat.leb_le in Hev. split; [exact Hev | exact (proj2 H0)].
Qed.

Lemma single_interactive_cell_never_warns_witness :
  console (lifeRun [Keeping (KeyUp ENTER); Render focusedProps [button; label];
                    Keeping (KeyUp ESCAPE); Render unfocusedProps [label];
                    Keeping (KeyUp F2)]
                   (mount focusedProps [label; button] Elsewhere)) = [].
Proof.
  apply (single_interactive_cell_never_warns focusedProps [label; button] Elsewhere).
  - simpl. lia.
  - repeat constructor.
Defined.

(** ** The marked elements *)

Lemma scan_of_map (q : Element -> bool) (i : nat) (l l' : Subtree) :
  map q l = map q l' -> scan q i l = scan q i l'.
Proof.
  revert i l'. induction l as [|e l IH]; intros i [|e' l'] H; simpl in *;
    try discriminate; [reflexivity|].
  injection H as He Hl. rewrite He, (IH (S i) l' Hl). reflexivity.
Qed.

(** The markers of a subtree are [m], and no unmarked element is tabbable. *)
Lemma marked_enteredEffect (m : list bool) (c : Cell) :
  map tabManaged (children c) = m
  /\ Forall (fun e => tabManaged e = false -> isTabbable e = false) (children c) ->
  map tabManaged (children (enteredEffect c)) = m
  /\ Forall (fun e => tabManaged e = false -> isTabbable e = false)
            (children (enteredEffect c)).
Proof.
  intros [Hm Hu]. rewrite children_enteredEffect.
  destruct (mounted c); [|now split].
  destruct (isCellEntered c).
  - split.
    + rewrite <- Hm, map_map. apply map_ext. apply tabManaged_enabled.
    + apply Forall_forall. intros e He.
      apply list_elem_of_fmap in He as (e0 & -> & He0).
      pose proof (proj1 (Forall_forall _ _) Hu e0 He0) as H0.
      unfold enabled, onMatch. destruct (tabManaged e0) eqn:E; simpl.
      * intros; congruence.
      * intros _. now apply H0.
  - split.
    + rewrite <- Hm, map_map. apply map_ext_in. intros e He.
      rewrite tabManaged_disabled.
      assert (Hin : e ∈ children c) by now apply list_elem_of_In.
      pose proof (proj1 (Forall_forall _ _) Hu e Hin) as H0.
      simpl in H0. destruct (tabManaged e); [reflexivity|]. now rewrite (H0 eq_refl).
    + apply Forall_forall. intros e He.
      apply list_elem_of_fmap in He as (e0 & -> & _).
      intros _. apply isTabbable_disabled.
Qed.

(** X11: as long as the rendered descendants stay in place (no render
    adds, removes or replaces one), the elements that carry the tab-managed
    marker are fixed by the first render: they are exactly the elements that
    carried it or were tabbable when the cell was first rendered, so the
    count the second effect decides on does not change. *)
Theorem marked_elements_fixed_while_descendants_kept (p : Props) (dom : Subtree)
    (active : Focus) (evs : list LifeEvent) :
  Forall (fun ev => keepsDescendants ev = true) evs ->
  map tabManaged (children (lifeRun evs (mount p dom active)))
    = map (fun e => tabManaged e || isTabbable e) dom
  /\ querySelectorAll_tabManaged (children (lifeRun evs (mount p dom active)))
    = querySelectorAll_tabManaged (children (mount p dom active)).
Proof.
  intros Hevs.
  set (m := map (fun e => tabManaged e || isTabbable e) dom).
  set (P := fun (l : Subtree) (_ : list string) =>
              map tabManaged l = m
              /\ Forall (fun e => tabManaged e = false -> isTabbable e = false) l).
  assert (Hstep : forall c, P (children c) (console c) ->
                            P (children (enteredEffect c)) (console (enteredEffect c)))
    by (intros c; apply marked_enteredEffect).
  assert (H0 : P (children (mount p dom active)) (console (mount p dom active))).
  { unfold mount. apply (invariant_commit P Hstep).
    match goal with
    | |- P (children (focusedEffect ?c1)) _ =>
        destruct (sameSubtreeAndConsole_focusedEffect c1) as [-> _]
    end.
    rewrite children_enteredEffect. simpl. split.
    - unfold m. rewrite map_map. apply map_ext. apply tabManaged_disabled.
    - apply Forall_forall. intros e He.
      apply list_elem_of_fmap in He as (e0 & -> & _).
      intros _. apply isTabbable_disabled. }
  assert (Hrun : P (children (lifeRun evs (mount p dom active)))
                   (console (lifeRun evs (mount p dom active)))).
  { revert H0. generalize (mount p dom active) as c.
    induction Hevs as [|ev evs Hev _ IH]; intros c H0; simpl; [exact H0|].
    apply IH. apply (invariant_lifeStep P Hstep); [|exact H0].
    destruct ev; [exact I | discriminate]. }
  split; [exact (proj1 Hrun)|].
  unfold querySelectorAll_tabManaged. apply scan_of_map.
  rewrite (proj1 Hrun). symmetry. exact (proj1 H0).
Qed.

Lemma marked_elements_fixed_while_descendants_kept_witness :
  map tabManaged (children (lifeRun [Keeping (KeyUp ENTER); Keeping (KeyUp ESCAPE)]
                                    (mount focusedProps [label; button; link5] Elsewhere)))
  = [false; true; true].
Proof.
  refine (proj1 (marked_elements_fixed_while_descendants_kept focusedProps
                   [label; button; link5] Elsewhere
                   [Keeping (KeyUp ENTER); Keeping (KeyUp ESCAPE)] _)).
  repeat constructor.
Defined.

(** ** First render and later renders *)

Lemma first_render_enters_single_interactive_witness :
  isCellEntered (mount focusedProps [label; button] Elsewhere) = true
  /\ activeElement (mount focusedProps [label; button] Elsewhere) = OnChild 1.
Proof.
  apply (first_render_enters_single_interactive focusedProps [label; button] Elsewhere 1%nat).
  - reflexivity.
  - repeat constructor.
  - reflexivity.
Defined.

Lemma marked_after_first_disable (dom : Subtree) :
  length (querySelectorAll_tabManaged (map disabled dom))
  = length (List.filter (fun e => tabManaged e || isTabbable e) dom).
Proof.
  unfold querySelectorAll_tabManaged. rewrite scan_map.
  rewrite (scan_ext _ (fun e => tabManaged e || isTabbable e)).
  - apply scan_length.
  - apply Forall_forall. intros e _. apply tabManaged_disabled.
Qed.

(** X13: the first render leaves the cell collapsed, with no tabbable
    descendant, in two cases.  A cell that is not the focus target leaves
    DOM focus where it was and renders its container with tabIndex -1.  A
    focused cell in whose subtree the elements marked or tabbable are not
    exactly one takes DOM focus on its container, rendered with tabIndex 0. *)
Theorem first_render_collapsed (p : Props) (dom : Subtree) (active : Focus) :
  (isFocused p = false ->
     isCellEntered (mount p dom active) = false
     /\ activeElement (mount p dom active) = active
     /\ tabbable (children (mount p dom active)) = []
     /\ containerTabIndex (mount p dom active) = -1)
  /\ (isFocused p = true ->
      length (List.filter (fun e => tabManaged e || isTabbable e) dom) <> 1%nat ->
      isCellEntered (mount p dom active) = false
      /\ activeElement (mount p dom active) = OnContainer
      /\ tabbable (children (mount p dom active)) = []
      /\ containerTabIndex (mount p dom active) = 0).
Proof.
  unfold mount.
  set (c0 := mkCell true p false (renderedTabIndex p) dom active [] [] [] []).
  assert (Hd : children (enteredEffect c0) = map disabled dom)
    by (rewrite children_enteredEffect; reflexivity).
  assert (Ha : activeElement (enteredEffect c0) = active)
    by (rewrite activeElement_enteredEffect; reflexivity).
  destruct (enteredEffect_frame c0) as (Hm & Hp & He & Ht & _).
  change (mounted c0) with true in Hm. change (props c0) with p in Hp.
  change (isCellEntered c0) with false in He.
  change (containerTabIndex c0) with (renderedTabIndex p) in Ht.
  split.
  - intros Hf.
    assert (E : focusedEffect (enteredEffect c0) = setIsCellEntered false (enteredEffect c0)).
    { unfold focusedEffect. rewrite Hm, Hp, Hf. reflexivity. }
    rewrite E. unfold commit.
    cbn [isCellEntered activeElement children containerTabIndex setIsCellEntered
         with_isCellEntered Bool.eqb].
    rewrite Ha, Hd, Ht, tabbable_disabled. unfold renderedTabIndex. rewrite Hf.
    repeat split.
  - intros Hf Hn.
    assert (E : focusedEffect (enteredEffect c0) = focusContainer (enteredEffect c0)).
    { unfold focusedEffect. rewrite Hm, Hp, Hf, Hd, marked_after_first_disable.
      apply Nat.eqb_neq in Hn. now rewrite Hn. }
    rewrite E. unfold commit.
    cbn [isCellEntered focusContainer with_activeElement]. rewrite He.
    cbn [Bool.eqb isCellEntered activeElement children containerTabIndex
         focusContainer with_activeElement].
    rewrite He, Hd, Ht, tabbable_disabled. unfold renderedTabIndex. rewrite Hf.
    repeat split.
Qed.

Lemma first_render_collapsed_witness :
  activeElement (mount unfocusedProps [button] (OnChild 0)) = OnChild 0
  /\ activeElement (mount focusedProps [button; button] Elsewhere) = OnContainer
  /\ activeElement (mount focusedProps [] Elsewhere) = OnContainer.
Proof.
  destruct (first_render_collapsed unfocusedProps [button] (OnChild 0)) as [Hu _].
  destruct (first_render_collapsed focusedProps [button; button] Elsewhere) as [_ H2].
  destruct (first_render_collapsed focusedProps [] Elsewhere) as [_ H0].
  split; [exact (proj1 (proj2 (Hu eq_refl)))|]. split.
  - refine (proj1 (proj2 (H2 eq_refl _))). simpl. lia.
  - refine (proj1 (proj2 (H0 eq_refl _))). simpl. lia.
Defined.

Lemma isFocused_iff (p : Props) :
  isFocused p = true <-> focusedCell p = Some (index p, -1).
Proof.
  unfold isFocused. destruct (focusedCell p) as [[col row]|]; [|split; discriminate].
  rewrite andb_true_iff, !Z.eqb_eq. split.
  - intros [-> ->]. reflexivity.
  - intros [= -> ->]. now split.
Qed.

(** X14: in every state a cell can reach, the container carries tabIndex 0
    exactly when the grid's focus target is this column in the header row,
    (index, -1), and tabIndex -1 otherwise. *)
Theorem container_tab_stop_follows_focus_target (c : Cell) :
  reachable c ->
  (containerTabIndex c = 0 <-> focusedCell (props c) = Some (index (props c), -1))
  /\ (containerTabIndex c = 0 \/ containerTabIndex c = -1).
Proof.
  intros Hr. destruct (reachable_cellInvariant c Hr) as [_ Ht].
  rewrite Ht, <- isFocused_iff. unfold renderedTabIndex.
  destruct (isFocused (props c)).
  - split; [split; reflexivity | now left].
  - split; [split; discriminate | now right].
Qed.

Lemma container_tab_stop_follows_focus_target_witness :
  containerTabIndex (step (Rerender unfocusedProps) (mount focusedProps [button] Elsewhere))
  = -1.
Proof.
  destruct (container_tab_stop_follows_focus_target
              (step (Rerender unfocusedProps) (mount focusedProps [button] Elsewhere))
              (reachable_step _ _ (reachable_mount _ _ _))) as [Hiff [H0 | H1]].
  - apply Hiff in H0. discriminate H0.
  - exact H1.
Defined.

(** X15: a render of a mounted cell that changes none of
    headerIsInteractive, isFocused, setFocusedCell and index runs no
    effect: the mode and the logs are as before and the descendants are as
    the render committed them, no disable pass having run, so that a
    tabbable descendant the render added is tabbable also in a collapsed
    cell.  A render that changes one of the four while the cell is the
    focus target, the marked descendants not being exactly one, puts DOM
    focus on the container and leaves mode and descendants as they are. *)
Theorem render_without_changed_dependency_runs_no_effect (c : Cell) (p : Props)
    (dom : Subtree) :
  mounted c = true ->
  (sameDeps (props c) p = true ->
     isCellEntered (lifeStep (Render p dom) c) = isCellEntered c
     /\ children (lifeStep (Render p dom) c) = dom
     /\ console (lifeStep (Render p dom) c) = console c
     /\ focusRequests (lifeStep (Render p dom) c) = focusRequests c
     /\ frames (lifeStep (Render p dom) c) = frames c)
  /\ (sameDeps (props c) p = false -> isFocused p = true ->
      length (querySelectorAll_tabManaged dom) <> 1%nat ->
      activeElement (lifeStep (Render p dom) c) = OnContainer
      /\ isCellEntered (lifeStep (Render p dom) c) = isCellEntered c
      /\ children (lifeStep (Render p dom) c) = dom).
Proof.
  intros Hm. simpl. unfold reconcile, rerender. rewrite Hm.
  cbn [mounted with_children props isCellEntered children activeElement console
       focusRequests frames uncaught].
  rewrite Hm. split.
  - intros Hs. rewrite Hs. unfold commit. cbn [isCellEntered].
    rewrite Bool.eqb_reflx. repeat split.
  - intros Hs Hf Hn. rewrite Hs. unfold focusedEffect. cbn [mounted props children].
    rewrite Hf. apply Nat.eqb_neq in Hn. rewrite Hn.
    unfold commit. cbn [isCellEntered focusContainer with_activeElement].
    rewrite Bool.eqb_reflx. repeat split.
Qed.

Lemma render_without_changed_dependency_runs_no_effect_witness :
  let c := mount focusedProps [] Elsewhere in
  tabbable (children (lifeStep (Render focusedProps [button]) c)) = [0%nat]
  /\ isCellEntered (lifeStep (Render focusedProps [button]) c) = false
  /\ activeElement
       (lifeStep (Render (mkProps ageColumn 0 None (Some (0, -1)) 1 true) [button; button])
                 (with_activeElement Elsewhere c)) = OnContainer.
Proof.
  intros c.
  destruct (render_without_changed_dependency_runs_no_effect c focusedProps [button]
              eq_refl) as [Hsame _].
  destruct (Hsame eq_refl) as (He & Hc & _).
  destruct (render_without_changed_dependency_runs_no_effect
              (with_activeElement Elsewhere c)
              (mkProps ageColumn 0 None (Some (0, -1)) 1 true) [button; button]
              eq_refl) as [_ Hchg].
  split; [now rewrite Hc|]. split; [exact He|].
  refine (proj1 (Hchg eq_refl eq_refl _)). vm_compute. lia.
Defined.

(** ** Tab-reachability controller: edges and round trip *)

(** X16: disableInteractives logs exactly when it finds more than one
    tabbable element; over a subtree without tabbable elements it changes
    nothing at all. *)
Theorem disableInteractives_quiet_below_two (c : Cell) :
  (console (disableInteractives c) = console c
   <-> (length (tabbable (children c)) <= 1)%nat)
  /\ (tabbable (children c) = [] -> disableInteractives c = c).
Proof.
  split.
  - rewrite disableInteractives_eq.
    destruct (1 <? length (tabbable (children c)))%nat eqn:E; simpl.
    + apply Nat.ltb_lt in E. split; [|lia].
      intros H. apply (f_equal (@length string)) in H.
      rewrite length_app in H. simpl in H. lia.
    + apply Nat.ltb_ge in E. tauto.
  - intros Hnil. rewrite disableInteractives_eq, Hnil. simpl.
    assert (Hid : map disabled (children c) = children c).
    { apply scan_nil in Hnil. induction Hnil as [|e l He _ IH]; simpl; [reflexivity|].
      rewrite IH. unfold disabled, onMatch. now rewrite He. }
    rewrite Hid. now destruct c.
Qed.

Lemma disableInteractives_quiet_below_two_witness :
  let c := mkCell true focusedProps false 0 [label; label] OnContainer [] [] [] [] in
  disableInteractives c = c.
Proof.
  intros c. apply (proj2 (disableInteractives_quiet_below_two c)). reflexivity.
Defined.

(** X17: over a subtree that carries no marker, disableInteractives
    followed by enableInteractives gives back the tabbable elements it
    started from, but not their tab order: each of them ends with the
    tabIndex attribute 0, whatever it had. *)
Theorem enable_after_disable_restores_tabbables (c : Cell) :
  Forall (fun e => tabManaged e = false) (children c) ->
  tabbable (children (enableInteractives (disableInteractives c)))
    = tabbable (children c)
  /\ forall n e, n ∈ tabbable (children c) ->
       children (enableInteractives (disableInteractives c)) !! n = Some e ->
       tabIndexAttr e = Some 0 /\ tabManaged e = true.
Proof.
  intros Hnone.
  rewrite children_enableInteractives, children_disableInteractives. split.
  - unfold tabbable. rewrite !scan_map. apply scan_ext.
    eapply Forall_impl; [exact Hnone|]. intros e Hm. simpl.
    now apply isTabbable_enabled_disabled.
  - intros n e Hn Hl. apply scan_lookup in Hn as (_ & e0 & Hl0 & Ht).
    rewrite Nat.sub_0_r in Hl0.
    rewrite !lookup_map, Hl0 in Hl. simpl in Hl. injection Hl as <-.
    unfold disabled, onMatch. rewrite Ht. unfold enabled, onMatch. simpl.
    split; reflexivity.
Qed.

Lemma enable_after_disable_restores_tabbables_witness :
  let c := mkCell true focusedProps false 0 [label; link5] OnContainer [] [] [] [] in
  tabbable (children (enableInteractives (disableInteractives c))) = [1%nat]
  /\ children (enableInteractives (disableInteractives c)) !! 1%nat
     = Some (mkElement true true (Some 0) true).
Proof.
  intros c.
  assert (Hnone : Forall (fun e => tabManaged e = false) (children c))
    by (repeat constructor).
  destruct (enable_after_disable_restores_tabbables c Hnone) as [Ht _].
  split; [exact Ht | reflexivity].
Defined.

(** ** Rendering *)

(** X18: the container never carries aria-sort and aria-describedby
    together, and an aria-describedby it carries is never dangling: the
    hidden node with that id is rendered, with the summary of the sort
    order as its text. *)
Theorem aria_describedby_is_exclusive_and_resolves (freshId : string) (p : Props) :
  (aria_sort (rendered_aria (render freshId p)) = None
   \/ aria_describedby (rendered_aria (render freshId p)) = None)
  /\ forall i, aria_describedby (rendered_aria (render freshId p)) = Some i ->
       i = freshId
       /\ exists cols, sorting p = Some cols
            /\ screenReaderOnly (render freshId p)
               = Some (mkHiddenNode (Some i) (Some (sortSummary cols))).
Proof.
  unfold render, sortAria.
  destruct (sorting p) as [cols|]; [|split; [now left | discriminate]].
  destruct (existsb (String.eqb (id (column p))) (map sort_id cols));
    destruct (length cols =? 1)%nat; destruct (2 <=? length cols)%nat; simpl;
    try (split; [now right | discriminate]);
    try (split; [now left | discriminate]).
  split; [now left|]. intros i [= <-]. split; [reflexivity|].
  exists cols. split; reflexivity.
Qed.

Lemma aria_describedby_is_exclusive_and_resolves_witness :
  let p := mkProps ageColumn 0
             (Some [mkSortColumn "name" "desc"; mkSortColumn "age" "asc"]) None 0 true in
  exists cols, sorting p = Some cols
    /\ screenReaderOnly (render "sr7" p)
       = Some (mkHiddenNode (Some "sr7"%string) (Some (sortSummary cols))).
Proof.
  intros p.
  destruct (aria_describedby_is_exclusive_and_resolves "sr7" p) as [_ H].
  exact (proj2 (H "sr7"%string eq_refl)).
Defined.

(** X19: the hidden node is rendered exactly when sorting has two or more
    entries; when this column is not among them the node has neither id
    nor text and the container carries neither ARIA attribute. *)
Theorem hidden_node_follows_entry_count (freshId : string) (p : Props) :
  (screenReaderOnly (render freshId p) <> None
   <-> exists cols, sorting p = Some cols /\ (2 <= length cols)%nat)
  /\ forall cols, sorting p = Some cols -> (2 <= length cols)%nat ->
       ~ In (id (column p)) (map sort_id cols) ->
       screenReaderOnly (render freshId p) = Some (mkHiddenNode None None)
       /\ rendered_aria (render freshId p) = mkAriaProps None None.
Proof.
  unfold render, sortAria. cbn [screenReaderOnly rendered_aria]. split.
  - destruct (sorting p) as [cols|].
    + destruct (2 <=? length cols)%nat eqn:E.
      * apply Nat.leb_le in E. split; [|intros _; discriminate]. intros _. now exists cols.
      * apply Nat.leb_gt in E. split; [congruence|].
        intros (cols' & [= <-] & Hlen). lia.
    + split; [congruence|]. intros (cols' & Hs & _). discriminate.
  - intros cols Hs Hlen Hnot. rewrite Hs.
    assert (Hhas : existsb (String.eqb (id (column p))) (map sort_id cols) = false).
    { apply not_true_is_false. intros H. apply existsb_exists in H as (x & Hin & Hx).
      apply String.eqb_eq in Hx. subst. contradiction. }
    assert (H2 : (2 <=? length cols)%nat = true) by (apply Nat.leb_le; lia).
    rewrite Hhas, H2, !andb_false_r. simpl. split; reflexivity.
Qed.

Lemma hidden_node_follows_entry_count_witness :
  screenReaderOnly (render "sr7"
    (mkProps ageColumn 0 (Some [mkSortColumn "name" "desc"; mkSortColumn "size" "asc"])
             None 0 true))
  = Some (mkHiddenNode None None).
Proof.
  destruct (hidden_node_follows_entry_count "sr7"
    (mkProps ageColumn 0 (Some [mkSortColumn "name" "desc"; mkSortColumn "size" "asc"])
             None 0 true)) as [_ H].
  refine (proj1 (H _ eq_refl _ _)).
  - simpl. lia.
  - simpl. intros [H1 | [H1 | []]]; discriminate.
Defined.

(** ** Layout *)

Lemma width_None (lp : LayoutProps) (id : string) :
  width lp id = None <->
  defaultColumnWidth lp = None
  /\ (columnWidths lp !! id = None \/ columnWidths lp !! id = Some 0).
Proof.
  unfold width. destruct (columnWidths lp !! id) as [w|].
  - destruct (w =? 0) eqn:E.
    + apply Z.eqb_eq in E. subst. split; [intros ->; auto | tauto].
    + apply Z.eqb_neq in E. split; [discriminate|].
      intros (_ & [H | H]); [discriminate | congruence].
  - split; [intros ->; auto | tauto].
Qed.

(** X20: the resize handle is rendered exactly when the column is not
    declared non-resizable and a width resolves; the handle then gets the
    column's id and the very width the style of the container shows.  The
    style has no width exactly when there is no default and the column has
    no entry, or the entry 0, in columnWidths. *)
Theorem resizer_agrees_with_style (lp : LayoutProps) (id : string) :
  (forall r, resizer lp id = Some r ->
     columnId r = id /\ isResizable lp <> Some false
     /\ width lp id = Some (columnWidth r)
     /\ styleWidth lp id = Some (zToString (columnWidth r) +:+ "px")%string)
  /\ (resizer lp id = None <-> isResizable lp = Some false \/ width lp id = None)
  /\ (styleWidth lp id = None <->
      defaultColumnWidth lp = None
      /\ (columnWidths lp !! id = None \/ columnWidths lp !! id = Some 0)).
Proof.
  split; [|split].
  - intros r. unfold resizer, styleWidth.
    destruct (isResizable lp) as [[|]|]; destruct (width lp id) as [w|];
      try discriminate; intros [= <-]; simpl; repeat split; congruence.
  - unfold resizer.
    destruct (isResizable lp) as [[|]|]; destruct (width lp id) as [w|];
      split; try discriminate; try tauto; auto;
      intros [H | H]; discriminate.
  - rewrite <- width_None. unfold styleWidth.
    destruct (width lp id); split; congruence.
Qed.

Lemma resizer_agrees_with_style_witness :
  let lp := mkLayoutProps {["age" := 120]} (Some 100) ∅ None None in
  styleWidth lp "age" = Some "120px"%string
  /\ resizer (mkLayoutProps ∅ None ∅ (Some true) None) "age" = None.
Proof.
  intros lp.
  destruct (resizer_agrees_with_style lp "age") as [Hr _].
  destruct (Hr (mkResizer "age" 120) eq_refl) as (_ & _ & _ & Hs).
  destruct (resizer_agrees_with_style (mkLayoutProps ∅ None ∅ (Some true) None) "age")
    as (_ & Hn & _).
  split; [exact Hs|]. apply Hn. right. reflexivity.
Defined.

(** X21: an entry of 0 in columnWidths counts as no entry: the column gets
    the width it would get with the entry deleted, that is the default. *)
Theorem zero_width_entry_is_ignored (lp : LayoutProps) (id : string) :
  columnWidths lp !! id = Some 0 ->
  width lp id = defaultColumnWidth lp
  /\ width lp id
     = width (mkLayoutProps (delete id (columnWidths lp)) (defaultColumnWidth lp)
                (schema lp) (isResizable lp) (className lp)) id.
Proof.
  intros H. unfold width. simpl. rewrite H, lookup_delete_eq. simpl. split; reflexivity.
Qed.

Lemma zero_width_entry_is_ignored_witness :
  width (mkLayoutProps {["age" := 0]} (Some 100) ∅ None None) "age" = Some 100.
Proof.
  exact (proj1 (zero_width_entry_is_ignored
                  (mkLayoutProps {["age" := 0]} (Some 100) ∅ None None) "age" eq_refl)).
Defined.

Lemma truthy_nonempty (s : string) : truthy s = true -> s <> EmptyString.
Proof. unfold truthy. intros H ->. discriminate. Qed.

(** X22: the class list always holds the base class and never an empty
    name, also for an empty className or columnType; it holds the type
    modifier whenever the schema has a non-empty columnType for the column,
    and for a column missing from the schema it is the base class followed
    by the className, if any. *)
Theorem classes_wellformed (lp : LayoutProps) (id : string) :
  "euiDataGridHeaderCell"%string ∈ classes lp id
  /\ Forall (fun cn => cn <> EmptyString) (classes lp id)
  /\ (forall t, schema lp !! id = Some (Some t) -> t <> EmptyString ->
        ("euiDataGridHeaderCell--" +:+ t)%string ∈ classes lp id)
  /\ (schema lp !! id = None ->
      classes lp id
      = "euiDataGridHeaderCell"%string
        :: match className lp with
           | Some cn => if String.eqb cn EmptyString then [] else [cn]
           | None => []
           end).
Proof.
  unfold classes. split; [apply list_elem_of_here | split; [|split]].
  - constructor; [discriminate|]. apply Forall_app. split.
    + destruct (columnType lp id) as [t|]; [|constructor].
      destruct (truthy t); repeat constructor. discriminate.
    + destruct (className lp) as [cn|]; [|constructor].
      destruct (truthy cn) eqn:E; repeat constructor. now apply truthy_nonempty.
  - intros t Hs Ht. unfold columnType. rewrite Hs.
    assert (E : truthy t = true).
    { unfold truthy. apply negb_true_iff. now apply String.eqb_neq. }
    rewrite E. apply list_elem_of_further, list_elem_of_here.
  - intros Hs. unfold columnType. rewrite Hs. simpl.
    destruct (className lp) as [cn|]; [|reflexivity].
    unfold truthy. now destruct (String.eqb cn EmptyString).
Qed.

Lemma classes_wellformed_witness :
  let lp := mkLayoutProps ∅ None {["age" := Some "numeric"%string]} None (Some EmptyString) in
  classes lp "age" = ["euiDataGridHeaderCell"; "euiDataGridHeaderCell--numeric"]%string
  /\ ("euiDataGridHeaderCell--numeric"%string ∈ classes lp "age")
  /\ classes lp "name" = ["euiDataGridHeaderCell"%string].
Proof.
  intros lp.
  destruct (classes_wellformed lp "age") as (_ & _ & H & _).
  destruct (classes_wellformed lp "name") as (_ & _ & _ & Hn).
  split; [reflexivity|]. split.
  - apply (H "numeric"%string eq_refl). discriminate.
  - apply Hn. reflexivity.
Defined.
